(** * rest-router: a shallow embedding of [src/rest-router.js]

    The class [RESTRouter] builds an Express router exposing one REST
    resource per table of a database.  Its own code is the constructor, the
    static method [create] and the method [createRouter]; Express, Sequelize,
    SequelizeAuto and epilogue are libraries it calls.  The embedding keeps
    JavaScript values, objects as ordered property lists, the heap of router
    objects that [createRouter] mutates, and the promise it returns. *)

From Stdlib Require Import Ascii.
From stdpp Require Import base decidable option numbers list sorting strings pretty gmap.

Set Warnings "-register-all".

Local Open Scope string_scope.
Local Open Scope list_scope.

(** ** JavaScript values *)

(** Plain data objects are kept by value, as their own enumerable string-keyed
    properties in creation order.  Host objects that the program mutates
    (Express routers and applications) live on the heap and are referred to
    by address.  Numbers enter this program only through [ToBoolean], so the
    integer-valued ones and [NaN] stand for the type. *)
Inductive value : Type :=
| VUndefined
| VNull
| VBool (b : bool)
| VNum (z : Z)
| VNaN
| VStr (s : string)
| VObject (props : list (string * value))
| VRef (l : nat).

Abbreviation props := (list (string * value)).

(** [ToBoolean]: what [router ? .. : ..] and [if (error)] test. *)
Definition truthy (v : value) : bool :=
  match v with
  | VUndefined | VNull | VNaN => false
  | VBool b => b
  | VNum z => negb (z =? 0)%Z
  | VStr s => negb (String.eqb s "")
  | VObject _ | VRef _ => true
  end.

(** ** Objects as ordered property lists *)

(** [o[k] = v]: an existing property keeps its place, a new one goes last. *)
Fixpoint obj_set (k : string) (v : value) (o : props) : props :=
  match o with
  | [] => [(k, v)]
  | (k', v') :: o' =>
      if decide (k = k') then (k, v) :: o' else (k', v') :: obj_set k v o'
  end.

(** [o[k]], as an own property or not at all. *)
Fixpoint obj_lookup (k : string) (o : props) : option value :=
  match o with
  | [] => None
  | (k', v) :: o' => if decide (k = k') then Some v else obj_lookup k o'
  end.

(** [o[k]] as an expression: [undefined] when the property is missing. *)
Definition obj_get (k : string) (o : props) : value :=
  default VUndefined (obj_lookup k o).

Definition own_names (o : props) : list string := o.*1.

(** An object literal or a sequence of assignments, from the empty object. *)
Definition obj_of_assignments (l : props) : props :=
  foldl (λ o kv, obj_set kv.1 kv.2 o) [] l.

(** *** Array indices among property names

    A property name is an array index when it is the canonical decimal
    spelling of an integer below [2^32 - 1]. *)
Definition digit (a : ascii) : option N :=
  let n := N_of_ascii a in
  if ((48 <=? n) && (n <=? 57))%N then Some (n - 48)%N else None.

Fixpoint digits (acc : N) (s : string) : option N :=
  match s with
  | EmptyString => Some acc
  | String a s' =>
      match digit a with
      | Some d => digits (10 * acc + d)%N s'
      | None => None
      end
  end.

Definition array_index (s : string) : option N :=
  match s with
  | EmptyString => None
  | String a rest =>
      match digits 0 s with
      | Some n =>
          if (negb (Ascii.eqb a "0"%char) || String.eqb rest "")
             && (n <? 4294967295)%N
          then Some n else None
      | None => None
      end
  end.

Definition is_array_index (s : string) : Prop := is_Some (array_index s).

Definition index_le (a b : string) : Prop :=
  (default 0 (array_index a) ≤ default 0 (array_index b))%N.

Global Instance index_le_dec a b : Decision (index_le a b).
Proof. unfold index_le. apply _. Defined.

(** [Object.keys(o)]: array indices in ascending numeric order, then the other
    names in creation order. *)
Definition Object_keys (o : props) : list string :=
  merge_sort index_le (filter is_array_index (own_names o))
  ++ filter (λ k, ¬ is_array_index k) (own_names o).

(** ** The heap of host objects *)

Inductive method : Type := GET | POST | PUT | DELETE.

(** A Sequelize model: the handle [sequelize.models[name]] made by
    [sequelize.define(name, attributes)]. *)
Record Model : Type := mkModel {
  model_name : string;
  model_attributes : value
}.

(** One route on a router's stack: verb, path, and the model its handler
    serves. *)
Record Route : Type := mkRoute {
  route_method : method;
  route_path : string;
  route_model : Model
}.

(** An Express router or application: its own enumerable properties, opaque
    to this program, and the stack of routes mounted on it. *)
Record HostObj : Type := mkHostObj {
  own : props;
  stack : list Route
}.

Abbreviation heap := (list HostObj).

(** ** [Object.assign] *)

(** The characters of a string primitive, as the indexed properties of its
    wrapper object. *)
Definition string_entries (s : string) : props :=
  imap (λ i c, (pretty i, VStr (String c ""))) (String.list_ascii_of_string s).

(** The own enumerable properties a source contributes, in the order
    [Object.assign] reads them: none for [undefined], [null], booleans and
    numbers. *)
Definition own_enumerable (h : heap) (src : value) : props :=
  match src with
  | VObject o => (λ k, (k, obj_get k o)) <$> Object_keys o
  | VStr s => string_entries s
  | VRef l => match h !! l with Some ob => own ob | None => [] end
  | _ => []
  end.

Definition assign_from (h : heap) (target : props) (src : value) : props :=
  foldl (λ o kv, obj_set kv.1 kv.2 o) target (own_enumerable h src).

Definition Object_assign (h : heap) (target : props) (sources : list value) : props :=
  foldl (assign_from h) target sources.

(** ** Objects of the program and of its libraries *)

(** A [Sequelize] connection: [models] is its registry, an object keyed by
    model name. *)
Record Sequelize : Type := mkSequelize {
  models : gmap string Model
}.

(** A [SequelizeAuto] introspector: the connection settings it was built
    with, the table descriptions [run] collects, and its connection. *)
Record SequelizeAuto : Type := mkSequelizeAuto {
  auto_database : value;
  auto_user : value;
  auto_password : value;
  auto_options : props;
  tables : props;
  sequelize : Sequelize
}.

(** An epilogue resource: the model it serves and its endpoints, plural
    (collection) first, singular (item) second. *)
Record Resource : Type := mkResource {
  resource_model : Model;
  endpoints : list string
}.

(** The instance: [auto], [router] and [resources] are unset until
    [createRouter] runs. *)
Record RESTRouter : Type := mkRESTRouter {
  database : value;
  user : value;
  password : value;
  options : props;
  auto : option SequelizeAuto;
  router : value;
  resources : option (list Resource)
}.

(** The object the promise is resolved with. *)
Record Resolution : Type := mkResolution {
  data_rest : RESTRouter;
  data_router : value;
  data_resources : option (list Resource)
}.

(** A promise is kept as the calls made to its [resolve] and [reject]
    functions, in order: it is pending while there is none, and the first
    call settles it for good. *)
Inductive settlement : Type :=
| Resolved (data : Resolution)
| Rejected (error : value).

Abbreviation Promise := (list settlement).

Definition promise_state (p : Promise) : option settlement := head p.

(** The module state of epilogue after [initialize]. *)
Record Epilogue : Type := mkEpilogue {
  app : value;
  base : string
}.

(** What the database answers to one [run] of the introspector: the
    assignments [tables[name] = description] it makes, in order, and the
    argument it hands to its callback. *)
Record Introspection : Type := mkIntrospection {
  discovered : props;
  run_error : value
}.

Record State : Type := mkState {
  st_heap : heap;
  st_epilogue : option Epilogue;
  st_this : RESTRouter;
  st_promise : Promise
}.

Definition set_heap (h : heap) (s : State) : State :=
  mkState h (st_epilogue s) (st_this s) (st_promise s).
Definition set_epilogue (e : option Epilogue) (s : State) : State :=
  mkState (st_heap s) e (st_this s) (st_promise s).
Definition set_this (r : RESTRouter) (s : State) : State :=
  mkState (st_heap s) (st_epilogue s) r (st_promise s).
Definition set_promise (p : Promise) (s : State) : State :=
  mkState (st_heap s) (st_epilogue s) (st_this s) p.

Definition set_auto (a : option SequelizeAuto) (r : RESTRouter) : RESTRouter :=
  mkRESTRouter (database r) (user r) (password r) (options r) a (router r) (resources r).
Definition set_router (v : value) (r : RESTRouter) : RESTRouter :=
  mkRESTRouter (database r) (user r) (password r) (options r) (auto r) v (resources r).
Definition set_resources (l : option (list Resource)) (r : RESTRouter) : RESTRouter :=
  mkRESTRouter (database r) (user r) (password r) (options r) (auto r) (router r) l.

Definition set_tables (t : props) (a : SequelizeAuto) : SequelizeAuto :=
  mkSequelizeAuto (auto_database a) (auto_user a) (auto_password a) (auto_options a)
    t (sequelize a).
Definition set_models (m : gmap string Model) (a : SequelizeAuto) : SequelizeAuto :=
  mkSequelizeAuto (auto_database a) (auto_user a) (auto_password a) (auto_options a)
    (tables a) (mkSequelize m).

(** ** Statements: state and exceptions *)

Inductive exn : Type :=
| TypeError (msg : string)
| Error (msg : string).

Inductive result (A : Type) : Type :=
| Ok (a : A)
| Throw (e : exn).
Arguments Ok {A} a.
Arguments Throw {A} e.

Definition M (A : Type) : Type := State → result A * State.

Definition ret {A} (a : A) : M A := λ s, (Ok a, s).
Definition bind {A B} (m : M A) (f : A → M B) : M B :=
  λ s, match m s with
       | (Ok a, s') => f a s'
       | (Throw e, s') => (Throw e, s')
       end.
Definition throw {A} (e : exn) : M A := λ s, (Throw e, s).
Definition gets {A} (f : State → A) : M A := λ s, (Ok (f s), s).
Definition modify (f : State → State) : M unit := λ s, (Ok tt, f s).

Notation "'let*' x := m 'in' k" := (bind m (λ x, k))
  (at level 10, x name, m at level 100, k at level 200).
Notation "m ;;; k" := (bind m (λ _, k))
  (at level 100, k at level 200, right associativity).

(** [array.forEach(f)]: an exception leaves the loop at once. *)
Fixpoint forEach {A} (l : list A) (f : A → M unit) : M unit :=
  match l with
  | [] => ret tt
  | x :: l' => f x ;;; forEach l' f
  end.

(** ** The library calls, at the boundary

    Express, Sequelize, SequelizeAuto and epilogue are not part of the
    repository.  Each call the program makes is given the effect its
    library documents, on the state above. *)

(** [new Router()]: a fresh router with nothing mounted. *)
Definition new_Router : M value :=
  λ s, let l := length (st_heap s) in
       (Ok (VRef l), set_heap (st_heap s ++ [mkHostObj [] []]) s).

(** [new SequelizeAuto(database, user, password, options)], when the
    constructor returns: no table read yet, a connection with an empty
    registry.  Sequelize refuses some settings (a dialect it does not
    support) by raising from this constructor; [createRouter_call] below has
    that outcome. *)
Definition new_SequelizeAuto (database user password : value) (options : props)
  : SequelizeAuto :=
  mkSequelizeAuto database user password options [] (mkSequelize ∅).

(** [restRouter.auto], a [TypeError] to use while unset. *)
Definition the_auto : M SequelizeAuto :=
  λ s, match auto (st_this s) with
       | Some a => (Ok a, s)
       | None => (Throw (TypeError "restRouter.auto is undefined"), s)
       end.

Definition update_auto (f : SequelizeAuto → SequelizeAuto) : M unit :=
  let* a := the_auto in
  modify (λ s, set_this (set_auto (Some (f a)) (st_this s)) s).

(** [auto.run(callback)]: the introspector fills [auto.tables], one
    assignment per table description it reads, then calls back once with its
    error argument. *)
Definition auto_run (i : Introspection) (callback : value → M unit) : M unit :=
  update_auto (λ a,
    set_tables (foldl (λ o kv, obj_set kv.1 kv.2 o) (tables a) (discovered i)) a) ;;;
  callback (run_error i).

(** Modelled from the spec: [sequelize.define(name, table)] and the
    registry [sequelize.models] are Sequelize's and not in the repository.
    The specification's model registry (section 4.2) registers a table
    description under its name and, for a name already registered, replaces
    the prior handle; the program reads the handle back as
    [sequelize.models[name]].  What Sequelize does to the description while
    defining (it normalises the column descriptors) is not modelled: the
    handle keeps the description as given. *)
Definition sequelize_define (name : string) (table : value) : M unit :=
  update_auto (λ a,
    set_models (<[name := mkModel name table]> (models (sequelize a))) a).

(** [epilogue.initialize({app, sequelize})]. *)
Definition epilogue_initialize (app : value) (sequelize : Sequelize) : M unit :=
  if truthy app
  then modify (set_epilogue (Some (mkEpilogue app "")))
  else throw (Error "please specify an app").

(** [app[method](path, handler)]: only a router has these methods. *)
Definition mount (app : value) (r : Route) : M unit :=
  λ s, match app with
       | VRef l =>
           match st_heap s !! l with
           | Some ob =>
               (Ok tt, set_heap (<[l := mkHostObj (own ob) (stack ob ++ [r])]> (st_heap s)) s)
           | None => (Throw (TypeError "app[method] is not a function"), s)
           end
       | _ => (Throw (TypeError "app[method] is not a function"), s)
       end.

Definition plural (r : Resource) : string := nth 0 (endpoints r) "".
Definition singular (r : Resource) : string := nth 1 (endpoints r) (plural r).

(** The routes of one resource, in the order epilogue mounts its controllers:
    create on the collection path, read, update and delete on the item path,
    list on the collection path. *)
Definition routes_of (r : Resource) : list Route :=
  [ mkRoute POST (plural r) (resource_model r);
    mkRoute GET (singular r) (resource_model r);
    mkRoute PUT (singular r) (resource_model r);
    mkRoute DELETE (singular r) (resource_model r);
    mkRoute GET (plural r) (resource_model r) ].

(** [epilogue.resource({model, endpoints})]: builds the resource and mounts
    its routes on the application given to [initialize].  Called without
    endpoints, epilogue derives them from the inflected model name; the
    program always passes two, and that branch is not modelled. *)
Definition epilogue_resource (model : option Model) (endpoints : list string)
  : M Resource :=
  match model with
  | None => throw (Error "please specify a valid model")
  | Some m =>
      let* ep := gets st_epilogue in
      match ep with
      | None => throw (Error "epilogue is not initialized")
      | Some ep =>
          match endpoints with
          | [] => throw (Error "default endpoints are not modelled")
          | _ :: _ =>
              let resource := mkResource m ((λ e, base ep +:+ e) <$> endpoints) in
              forEach (routes_of resource) (mount (app ep)) ;;;
              ret resource
          end
      end
  end.

(** [resolve(data)] and [reject(error)] of the promise being built. *)
Definition resolve (data : Resolution) : M unit :=
  modify (λ s, set_promise (st_promise s ++ [Resolved data]) s).
Definition reject (error : value) : M unit :=
  modify (λ s, set_promise (st_promise s ++ [Rejected error]) s).

(** [restRouter.resources.push(resource)]. *)
Definition push_resource (resource : Resource) : M unit :=
  λ s, match resources (st_this s) with
       | Some rs =>
           (Ok tt, set_this (set_resources (Some (rs ++ [resource])) (st_this s)) s)
       | None => (Throw (TypeError "restRouter.resources is undefined"), s)
       end.

(** A parameter declared [p = d]: the default stands in for a missing or
    [undefined] argument. *)
Definition param (arg : option value) (d : value) : value :=
  match arg with
  | None | Some VUndefined => d
  | Some v => v
  end.

(** ** The class [RESTRouter] *)

Definition defaults : props :=
  [ ("dialect", VStr "mysql");
    ("logging", VBool false);
    ("define", VObject [("timestamps", VBool false); ("freezeTableName", VBool true)]);
    ("closeConnectionAutomatically", VBool false);
    ("directory", VStr "models") ].

(** [new RESTRouter(database, user, password, options)]. *)
Definition constructor (h : heap) (database user password options : value)
  : RESTRouter :=
  {| database := database;
     user := user;
     password := password;
     options := Object_assign h [] [VObject defaults; options];
     auto := None;
     router := VUndefined;
     resources := None |}.

(** The body of the loop over [Object.keys(restRouter.auto.tables)]. *)
Definition each_table (name : string) : M unit :=
  let* a := the_auto in
  let table := obj_get name (tables a) in
  sequelize_define name table ;;;
  let* a := the_auto in
  let model := models (sequelize a) !! name in
  let endpoints := ["/" +:+ name; "/" +:+ name +:+ "/:id"] in
  let* resource := epilogue_resource model endpoints in
  push_resource resource.

(** The callback [createRouter] hands to [auto.run]. *)
Definition callback (error : value) : M unit :=
  if truthy error then reject error
  else
    let* restRouter := gets st_this in
    let* a := the_auto in
    epilogue_initialize (router restRouter) (sequelize a) ;;;
    let* a := the_auto in
    forEach (Object_keys (tables a)) each_table ;;;
    let* restRouter := gets st_this in
    resolve {| data_rest := restRouter;
               data_router := router restRouter;
               data_resources := resources restRouter |}.

(** [restRouter.createRouter(router)] when [new SequelizeAuto] returns, run
    until the introspector has called back.  The promise it returns is the
    [st_promise] of the final state; an exception raised inside the callback
    is not caught by the promise and shows as [Throw]. *)
Definition createRouter (i : Introspection) (router : option value) : M unit :=
  let router := param router VUndefined in
  let* this := gets st_this in
  modify (λ s, set_this (set_auto (Some (new_SequelizeAuto
    (database this) (user this) (password this) (options this))) (st_this s)) s) ;;;
  let* r := (if truthy router then ret router else new_Router) in
  modify (λ s, set_this (set_router r (st_this s)) s) ;;;
  modify (λ s, set_this (set_resources (Some []) (st_this s)) s) ;;;
  modify (set_promise []) ;;;
  auto_run i callback.

(** [RESTRouter.create(database, user, password, options, router)]. *)
Definition create (i : Introspection) (database user password options : value)
    (router : option value) : M unit :=
  let router := param router VUndefined in
  let* h := gets st_heap in
  modify (set_this (constructor h database user password options)) ;;;
  createRouter i (Some router).

(** The whole call of [createRouter].  Line 206 is its first statement with
    an effect, and [new SequelizeAuto] may raise there: whether Sequelize
    accepts the settings depends on the library and its installed drivers, so
    the exception it raises, if any, is an input.  When it raises nothing has
    been assigned and no promise is returned. *)
Definition createRouter_call (refusal : option exn) (i : Introspection)
    (router : option value) : M unit :=
  match refusal with
  | Some e => throw e
  | None => createRouter i router
  end.

(** The whole call of [RESTRouter.create]. *)
Definition create_call (refusal : option exn) (i : Introspection)
    (database user password options : value) (router : option value) : M unit :=
  let router := param router VUndefined in
  let* h := gets st_heap in
  modify (set_this (constructor h database user password options)) ;;;
  createRouter_call refusal i (Some router).

(** ** Closed forms of a run *)

(** The table object the introspector leaves in [auto.tables]. *)
Definition tables_of (i : Introspection) : props :=
  obj_of_assignments (discovered i).

(** The resource [each_table] builds for a table name. *)
Definition resource_for (t : props) (name : string) : Resource :=
  mkResource (mkModel name (obj_get name t))
    ["/" +:+ name; "/" +:+ name +:+ "/:id"].

(** The registry after [define] has run for each name in turn. *)
Definition models_for (t : props) (m : gmap string Model) (names : list string)
  : gmap string Model :=
  foldl (λ m k, <[k := mkModel k (obj_get k t)]> m) m names.

(** The router [createRouter] works on, and the heap that holds it. *)
Definition target (s : State) (arg : option value) : value :=
  if truthy (param arg VUndefined) then param arg VUndefined
  else VRef (length (st_heap s)).

Definition target_heap (s : State) (arg : option value) : heap :=
  if truthy (param arg VUndefined) then st_heap s
  else st_heap s ++ [mkHostObj [] []].

(** The argument is usable as a router: missing or falsy, or the address of
    a router on the heap. *)
Definition usable (s : State) (arg : option value) : bool :=
  let router := param arg VUndefined in
  if truthy router
  then match router with
       | VRef l => bool_decide (is_Some (st_heap s !! l))
       | _ => false
       end
  else true.

(** The resources of a run, in the order the loop builds them. *)
Definition registered (i : Introspection) : list Resource :=
  resource_for (tables_of i) <$> Object_keys (tables_of i).

(** The introspector once [run] has filled its tables. *)
Definition auto_after_run (i : Introspection) (this : RESTRouter) : SequelizeAuto :=
  set_tables (tables_of i)
    (new_SequelizeAuto (database this) (user this) (password this) (options this)).

(** The instance when the loop is over. *)
Definition this_after (i : Introspection) (this : RESTRouter) (r : value) : RESTRouter :=
  mkRESTRouter (database this) (user this) (password this) (options this)
    (Some (set_models (models_for (tables_of i) ∅ (Object_keys (tables_of i)))
             (auto_after_run i this)))
    r (Some (registered i)).

(** ** Sample runs *)

Module Samples.
Definition columns : value :=
  VObject [ ("id", VObject [("type", VStr "INTEGER"); ("primaryKey", VBool true)]);
            ("name", VObject [("type", VStr "VARCHAR(255)")]) ].

(** A database with two tables. *)
Definition shop : Introspection :=
  mkIntrospection [("users", columns); ("orders", columns)] VNull.

(** An empty database. *)
Definition empty : Introspection := mkIntrospection [] VNull.

(** A run whose introspector calls back with an error. *)
Definition refused : Introspection :=
  mkIntrospection [] (VStr "ER_ACCESS_DENIED_ERROR").

(** Two tables, the second named like the item path of the first. *)
Definition clash : Introspection :=
  mkIntrospection [("a", columns); ("a/:id", VObject [])] VNull.

(** The description of [users] is read twice. *)
Definition twice : Introspection :=
  mkIntrospection [("users", VObject []); ("orders", columns); ("users", columns)] VNull.

(** Four tables, two of them with numbers for names. *)
Definition numbered : Introspection :=
  mkIntrospection [("b", columns); ("10", columns); ("a", columns); ("9", columns)] VNull.

Definition instance : RESTRouter :=
  constructor [] (VStr "shop") (VStr "admin") (VStr "secret") VUndefined.

(** No router yet. *)
Definition fresh : State := mkState [] None instance [].

(** An application with one route of its own, at address 0. *)
Definition health : Route := mkRoute GET "/health" (mkModel "health" VNull).
Definition with_app : State := mkState [mkHostObj [] [health]] None instance [].
End Samples.

(** * Properties *)

(** ** Objects *)

Section objects.
Implicit Types (o : props) (k : string) (v : value).

Lemma own_names_obj_set k v o :
  own_names (obj_set k v o)
  = if decide (k ∈ own_names o) then own_names o else own_names o ++ [k].
Proof.
  unfold own_names. induction o as [|[k' v'] o IH].
  - rewrite decide_False; [done | apply not_elem_of_nil].
  - cbn [obj_set]. destruct (decide (k = k')) as [->|Hne]; rewrite !fmap_cons; cbn [fst].
    + rewrite decide_True; [done | apply elem_of_cons; by left].
    + rewrite IH. destruct (decide (k ∈ o.*1)) as [Hin|Hnin].
      * rewrite decide_True; [done | by apply elem_of_cons; right].
      * rewrite decide_False; [done |].
        intros [?|?]%elem_of_cons; done.
Qed.

Lemma NoDup_obj_set k v o : NoDup (own_names o) → NoDup (own_names (obj_set k v o)).
Proof.
  intros Hnd. rewrite own_names_obj_set. case_decide; [done |].
  apply NoDup_app. split_and!; [done | | apply NoDup_singleton].
  intros x Hx ->%list_elem_of_singleton. done.
Qed.

Lemma obj_lookup_set_eq k v o : obj_lookup k (obj_set k v o) = Some v.
Proof.
  induction o as [|[k' v'] o IH]; simpl.
  - by rewrite decide_True.
  - destruct (decide (k = k')) as [->|Hne]; simpl.
    + by rewrite decide_True.
    + by rewrite decide_False.
Qed.

Lemma obj_lookup_set_ne k k' v o :
  k ≠ k' → obj_lookup k' (obj_set k v o) = obj_lookup k' o.
Proof.
  intros Hne. induction o as [|[k1 v1] o IH]; simpl.
  - by rewrite decide_False.
  - destruct (decide (k = k1)) as [->|Hne1]; simpl.
    + by rewrite !decide_False.
    + by rewrite IH.
Qed.

Lemma obj_lookup_Some k o : k ∈ own_names o ↔ is_Some (obj_lookup k o).
Proof.
  unfold own_names. induction o as [|[k' v'] o IH]; simpl.
  - split; [by intros ?%not_elem_of_nil | by intros [? ?]].
  - destruct (decide (k = k')) as [->|Hne].
    + split; [by eauto | intros _; apply elem_of_cons; by left].
    + rewrite elem_of_cons, IH. intuition congruence.
Qed.

Lemma NoDup_assignments o (l : props) :
  NoDup (own_names o) →
  NoDup (own_names (foldl (λ o kv, obj_set kv.1 kv.2 o) o l)).
Proof.
  revert o. induction l as [|[k v] l IH]; intros o Hnd; simpl; [done |].
  apply IH. by apply NoDup_obj_set.
Qed.

Lemma elem_of_assignments k o (l : props) :
  k ∈ own_names (foldl (λ o kv, obj_set kv.1 kv.2 o) o l)
  ↔ k ∈ own_names o ∨ k ∈ l.*1.
Proof.
  revert o. induction l as [|[k' v] l IH]; intros o; simpl.
  - rewrite elem_of_nil. tauto.
  - rewrite IH, own_names_obj_set, elem_of_cons. case_decide.
    + intuition congruence.
    + rewrite elem_of_app, list_elem_of_singleton. tauto.
Qed.

(** After a sequence of assignments a name holds the value assigned to it
    last. *)
Lemma obj_lookup_assignments_last k v o (l1 l2 : props) :
  k ∉ l2.*1 →
  obj_lookup k (foldl (λ o kv, obj_set kv.1 kv.2 o) o (l1 ++ (k, v) :: l2)) = Some v.
Proof.
  intros Hk. rewrite foldl_app. simpl.
  generalize (foldl (λ o kv, obj_set kv.1 kv.2 o) o l1). intros o1.
  assert (∀ o', obj_lookup k o' = Some v →
    obj_lookup k (foldl (λ o kv, obj_set kv.1 kv.2 o) o' l2) = Some v) as Hkeep.
  { clear o o1. induction l2 as [|[k2 v2] l2 IH]; intros o' Ho'; simpl; [done |].
    simpl in Hk. apply not_elem_of_cons in Hk as [Hne Hk].
    apply IH; [done |]. by rewrite obj_lookup_set_ne. }
  apply Hkeep, obj_lookup_set_eq.
Qed.

Lemma own_names_assignments o (l : props) :
  NoDup (own_names o ++ l.*1) →
  own_names (foldl (λ o kv, obj_set kv.1 kv.2 o) o l) = own_names o ++ l.*1.
Proof.
  revert o. induction l as [|[k v] l IH]; intros o Hnd; cbn [foldl fst snd].
  - by rewrite app_nil_r.
  - rewrite fmap_cons in *. cbn [fst] in *.
    assert (own_names (obj_set k v o) = own_names o ++ [k]) as Hset.
    { rewrite own_names_obj_set, decide_False; [done |].
      apply NoDup_app in Hnd as (_ & Hnd & _). intros Hk.
      apply (Hnd k Hk), elem_of_cons. by left. }
    rewrite IH; rewrite Hset, <- app_assoc; done.
Qed.

(** Assigning the entries [(k, f k)] for [k] in [ks] leaves [f k] at each
    such [k] and the rest as it was. *)
Lemma obj_lookup_entries (f : string → value) (ks : list string) : ∀ o k,
  obj_lookup k (foldl (λ o kv, obj_set kv.1 kv.2 o) o ((λ k, (k, f k)) <$> ks))
  = if decide (k ∈ ks) then Some (f k) else obj_lookup k o.
Proof.
  induction ks as [|k0 ks IH]; intros o k.
  - rewrite decide_False; [done | apply not_elem_of_nil].
  - rewrite fmap_cons. cbn [foldl fst snd]. rewrite IH.
    destruct (decide (k ∈ ks)) as [Hin|Hnin].
    + rewrite decide_True; [done | by apply elem_of_cons; right].
    + destruct (decide (k = k0)) as [->|Hne].
      * rewrite obj_lookup_set_eq, decide_True; [done | apply elem_of_cons; by left].
      * rewrite obj_lookup_set_ne by done.
        rewrite decide_False; [done |]. intros [?|?]%elem_of_cons; done.
Qed.

Lemma Object_keys_Permutation o : Object_keys o ≡ₚ own_names o.
Proof.
  unfold Object_keys. rewrite merge_sort_Permutation.
  apply filter_app_complement.
Qed.

Lemma NoDup_Object_keys o : NoDup (own_names o) → NoDup (Object_keys o).
Proof. by rewrite Object_keys_Permutation. Qed.

Lemma elem_of_Object_keys k o : k ∈ Object_keys o ↔ k ∈ own_names o.
Proof. by rewrite Object_keys_Permutation. Qed.

Lemma length_Object_keys o : length (Object_keys o) = length o.
Proof.
  rewrite Object_keys_Permutation. unfold own_names. by rewrite length_fmap.
Qed.

(** Without array indices among the names, [Object.keys] is creation
    order. *)
(** [Object.assign] from a plain object: its properties override, the
    others stay. *)
Lemma obj_lookup_assign_from h o (src : props) k :
  obj_lookup k (assign_from h o (VObject src))
  = match obj_lookup k src with
    | Some v => Some v
    | None => obj_lookup k o
    end.
Proof.
  unfold assign_from, own_enumerable.
  rewrite (obj_lookup_entries (λ k, obj_get k src)).
  destruct (decide (k ∈ Object_keys src)) as [Hin|Hnin].
  - apply elem_of_Object_keys, obj_lookup_Some in Hin as [v Hv].
    unfold obj_get. by rewrite Hv.
  - destruct (obj_lookup k src) as [v|] eqn:Hv; [| done].
    exfalso. apply Hnin, elem_of_Object_keys, obj_lookup_Some. by eexists.
Qed.

Global Instance index_le_total : Total index_le.
Proof. intros a b. unfold index_le. lia. Qed.

(** [Object.keys] spelled out: the array indices among the names, in ascending
    numeric order, then the other names as they were created. *)
Lemma Object_keys_order o :
  ∃ numeric,
    Object_keys o = numeric ++ filter (λ k, ¬ is_array_index k) (own_names o)
    ∧ numeric ≡ₚ filter is_array_index (own_names o)
    ∧ Sorted index_le numeric.
Proof.
  exists (merge_sort index_le (filter is_array_index (own_names o))).
  split; [done |]. split; [apply merge_sort_Permutation | apply Sorted_merge_sort, _].
Qed.

Lemma Object_keys_named o :
  Forall (λ k, ¬ is_array_index k) (own_names o) → Object_keys o = own_names o.
Proof.
  intros Hall. unfold Object_keys.
  assert (filter is_array_index (own_names o) = []) as ->.
  { induction Hall as [|k ks Hk _ IH]; [done |].
    rewrite filter_cons, decide_False; done. }
  simpl. induction Hall as [|k ks Hk _ IH]; [done |].
  rewrite filter_cons, decide_True; [by f_equal | done].
Qed.
End objects.

(** ** The pipeline *)

Section pipeline.
Implicit Types (h : heap) (s : State) (l : nat) (ob : HostObj).

Lemma host_eta ob : mkHostObj (own ob) (stack ob) = ob.
Proof. by destruct ob. Qed.

Lemma mount_routes rs : ∀ h l ob e t p,
  h !! l = Some ob →
  forEach rs (mount (VRef l)) (mkState h e t p)
  = (Ok tt, mkState (<[l := mkHostObj (own ob) (stack ob ++ rs)]> h) e t p).
Proof.
  induction rs as [|r rs IH]; intros h l ob e t p Hl.
  - cbn. rewrite app_nil_r, host_eta, list_insert_id; done.
  - cbn [forEach]. unfold bind at 1. unfold mount at 1. cbn. rewrite Hl.
    unfold set_heap. cbn.
    erewrite IH; last first.
    { apply list_lookup_insert_eq. by eapply lookup_lt_Some. }
    cbn. by rewrite list_insert_insert_eq, <- app_assoc.
Qed.

Lemma bind_Ok {A B} (m : M A) (f : A → M B) s a s' :
  m s = (Ok a, s') → bind m f s = f a s'.
Proof. unfold bind. by intros ->. Qed.

Lemma epilogue_resource_Ok m e1 e2 h l ob t p :
  h !! l = Some ob →
  epilogue_resource (Some m) [e1; e2]
    (mkState h (Some (mkEpilogue (VRef l) "")) t p)
  = (Ok (mkResource m [e1; e2]),
     mkState
       (<[l := mkHostObj (own ob) (stack ob ++ routes_of (mkResource m [e1; e2]))]> h)
       (Some (mkEpilogue (VRef l) "")) t p).
Proof.
  intros Hl. unfold epilogue_resource.
  erewrite bind_Ok; [| reflexivity]. cbn [st_epilogue app].
  change ((λ e : string, base (mkEpilogue (VRef l) "") +:+ e) <$> [e1; e2])
    with [e1; e2].
  erewrite bind_Ok; [reflexivity |].
  apply (mount_routes _ _ _ _ _ _ _ Hl).
Qed.

Lemma each_table_step name h l ob d u p o a r rs pr :
  h !! l = Some ob →
  each_table name
    (mkState h (Some (mkEpilogue (VRef l) ""))
       (mkRESTRouter d u p o (Some a) r (Some rs)) pr)
  = (Ok tt,
     mkState
       (<[l := mkHostObj (own ob)
                 (stack ob ++ routes_of (resource_for (tables a) name))]> h)
       (Some (mkEpilogue (VRef l) ""))
       (mkRESTRouter d u p o
          (Some (set_models
                   (<[name := mkModel name (obj_get name (tables a))]>
                      (models (sequelize a))) a))
          r (Some (rs ++ [resource_for (tables a) name]))) pr).
Proof.
  intros Hl. unfold each_table.
  erewrite bind_Ok; [| reflexivity].
  erewrite bind_Ok; [| reflexivity].
  erewrite bind_Ok; [| reflexivity].
  cbv zeta. cbn [models sequelize set_models].
  rewrite lookup_insert_eq.
  erewrite bind_Ok; [| by apply epilogue_resource_Ok].
  reflexivity.
Qed.

Lemma set_models_id a : set_models (models (sequelize a)) a = a.
Proof. by destruct a as [? ? ? ? ? []]. Qed.

Lemma forEach_tables names : ∀ h l ob d u p o a r rs pr,
  h !! l = Some ob →
  forEach names each_table
    (mkState h (Some (mkEpilogue (VRef l) ""))
       (mkRESTRouter d u p o (Some a) r (Some rs)) pr)
  = (Ok tt,
     mkState
       (<[l := mkHostObj (own ob)
                 (stack ob
                  ++ concat (routes_of <$> (resource_for (tables a) <$> names)))]> h)
       (Some (mkEpilogue (VRef l) ""))
       (mkRESTRouter d u p o
          (Some (set_models (models_for (tables a) (models (sequelize a)) names) a))
          r (Some (rs ++ (resource_for (tables a) <$> names)))) pr).
Proof.
  induction names as [|name names IH]; intros h l ob d u p o a r rs pr Hl.
  - cbn. by rewrite !app_nil_r, host_eta, list_insert_id, set_models_id.
  - cbn [forEach]. erewrite bind_Ok; [| by apply each_table_step].
    erewrite IH; last first.
    { apply list_lookup_insert_eq. by eapply lookup_lt_Some. }
    cbn [own stack tables set_models models sequelize fmap list_fmap concat
         models_for foldl].
    rewrite list_insert_insert_eq.
    by rewrite <- !app_assoc.
Qed.

(** A run whose introspection reports no error: closed form of the final
    state. *)
Lemma createRouter_Resolved i arg s l ob :
  truthy (run_error i) = false →
  target s arg = VRef l →
  target_heap s arg !! l = Some ob →
  createRouter i arg s
  = (Ok tt,
     mkState
       (<[l := mkHostObj (own ob)
                 (stack ob ++ concat (routes_of <$> registered i))]>
          (target_heap s arg))
       (Some (mkEpilogue (VRef l) ""))
       (this_after i (st_this s) (VRef l))
       [Resolved (mkResolution (this_after i (st_this s) (VRef l)) (VRef l)
                    (Some (registered i)))]).
Proof.
  intros Herr Ht Hl. unfold createRouter.
  erewrite bind_Ok; [| reflexivity].
  erewrite bind_Ok; [| reflexivity].
  assert (∃ s1, (if truthy (param arg VUndefined) then ret (param arg VUndefined)
                 else new_Router)
                  (modify (λ s, set_this (set_auto (Some (new_SequelizeAuto
                     (database (st_this s)) (user (st_this s)) (password (st_this s))
                     (options (st_this s)))) (st_this s)) s) s).2
                = (Ok (VRef l), s1)
                ∧ s1 = mkState (target_heap s arg) (st_epilogue s)
                         (set_auto (Some (new_SequelizeAuto
                            (database (st_this s)) (user (st_this s))
                            (password (st_this s)) (options (st_this s)))) (st_this s))
                         (st_promise s)) as (s1 & Hs1 & ->).
  { unfold target, target_heap in *.
    destruct (truthy (param arg VUndefined)).
    - rewrite Ht. eexists. split; reflexivity.
    - injection Ht as <-. eexists. split; reflexivity. }
  cbn [snd modify] in Hs1.
  erewrite bind_Ok; [| apply Hs1].
  erewrite bind_Ok; [| reflexivity].
  erewrite bind_Ok; [| reflexivity].
  erewrite bind_Ok; [| reflexivity].
  unfold auto_run.
  erewrite bind_Ok; [| reflexivity].
  unfold callback. rewrite Herr.
  erewrite bind_Ok; [| reflexivity].
  erewrite bind_Ok; [| reflexivity].
  erewrite bind_Ok; [| reflexivity].
  erewrite bind_Ok; [| reflexivity].
  erewrite bind_Ok; [| by apply (forEach_tables _ _ _ _ _ _ _ _ _ _ _ _ Hl)].
  reflexivity.
Qed.

(** A run whose introspection reports an error: nothing after the test of
    [error] runs. *)
Lemma createRouter_Rejected i arg s :
  truthy (run_error i) = true →
  createRouter i arg s
  = (Ok tt,
     mkState (target_heap s arg) (st_epilogue s)
       (mkRESTRouter (database (st_this s)) (user (st_this s))
          (password (st_this s)) (options (st_this s))
          (Some (auto_after_run i (st_this s))) (target s arg) (Some []))
       [Rejected (run_error i)]).
Proof.
  intros Herr. unfold createRouter.
  erewrite bind_Ok; [| reflexivity].
  erewrite bind_Ok; [| reflexivity].
  erewrite bind_Ok; last first.
  { instantiate (1 := mkState (target_heap s arg) (st_epilogue s)
      (set_auto (Some (new_SequelizeAuto
         (database (st_this s)) (user (st_this s))
         (password (st_this s)) (options (st_this s)))) (st_this s))
      (st_promise s)).
    instantiate (1 := target s arg).
    unfold target, target_heap.
    destruct (truthy (param arg VUndefined)); reflexivity. }
  erewrite bind_Ok; [| reflexivity].
  erewrite bind_Ok; [| reflexivity].
  erewrite bind_Ok; [| reflexivity].
  unfold auto_run.
  erewrite bind_Ok; [| reflexivity].
  unfold callback. rewrite Herr. reflexivity.
Qed.

Lemma lookup_fresh h ob : (h ++ [ob]) !! length h = Some ob.
Proof. by rewrite lookup_app_r, Nat.sub_diag. Qed.

Lemma usable_spec s arg :
  usable s arg = true →
  ∃ l ob, target s arg = VRef l ∧ target_heap s arg !! l = Some ob.
Proof.
  unfold usable, target, target_heap. cbv zeta.
  destruct (truthy (param arg VUndefined)).
  - destruct (param arg VUndefined) as [| | | | | | |l]; try done.
    intros [ob Hob]%bool_decide_eq_true. by exists l, ob.
  - intros _. eexists _, _. split; [done | apply lookup_fresh].
Qed.

Lemma target_falsy s v :
  truthy v = false →
  target s (Some v) = VRef (length (st_heap s))
  ∧ target_heap s (Some v) = st_heap s ++ [mkHostObj [] []].
Proof.
  intros Hv. unfold target, target_heap.
  assert (truthy (param (Some v) VUndefined) = false) as ->; [| done].
  by destruct v.
Qed.

Lemma usable_omitted s : usable s None = true.
Proof. done. Qed.

Lemma usable_falsy s v : truthy v = false → usable s (Some v) = true.
Proof.
  intros Hv. unfold usable. cbv zeta.
  assert (truthy (param (Some v) VUndefined) = false) as ->; [| done].
  by destruct v.
Qed.

Lemma usable_router s l : is_Some (st_heap s !! l) → usable s (Some (VRef l)) = true.
Proof. intros Hl. unfold usable. cbn. by apply bool_decide_eq_true. Qed.
End pipeline.

(** ** Resources, paths and the registry *)

Section resources.
Implicit Types (t : props) (name : string).

Lemma append_slash_inj name name' : "/" +:+ name = "/" +:+ name' → name = name'.
Proof.
  change (String "/"%char name = String "/"%char name' → name = name').
  by intros [= ->].
Qed.

Lemma length_string_app (s1 s2 : string) :
  String.length (s1 +:+ s2) = String.length s1 + String.length s2.
Proof.
  induction s1 as [|a s1 IH]; [done |].
  change (String a s1 +:+ s2) with (String a (s1 +:+ s2)).
  cbn [String.length]. by rewrite IH.
Qed.

Lemma string_app_inv_tail (s1 s2 tail : string) :
  s1 +:+ tail = s2 +:+ tail → s1 = s2.
Proof.
  revert s2. induction s1 as [|a s1 IH]; intros [|b s2] Heq; [done | | |].
  - apply (f_equal String.length) in Heq.
    rewrite !length_string_app in Heq. cbn in Heq. lia.
  - apply (f_equal String.length) in Heq.
    rewrite !length_string_app in Heq. cbn in Heq. lia.
  - change (String a (s1 +:+ tail) = String b (s2 +:+ tail)) in Heq.
    injection Heq as -> Heq. f_equal. by apply IH.
Qed.

Lemma append_id_inj name name' :
  "/" +:+ name +:+ "/:id" = "/" +:+ name' +:+ "/:id" → name = name'.
Proof. intros Heq%append_slash_inj. by eapply string_app_inv_tail. Qed.

Lemma plural_resource_for t name : plural (resource_for t name) = "/" +:+ name.
Proof. done. Qed.

Lemma singular_resource_for t name :
  singular (resource_for t name) = "/" +:+ name +:+ "/:id".
Proof. done. Qed.

Lemma NoDup_plural t (names : list string) :
  NoDup names → NoDup (plural <$> (resource_for t <$> names)).
Proof.
  intros Hnd. rewrite <- list_fmap_compose.
  apply NoDup_fmap_2_strong; [| done].
  intros x y _ _. apply append_slash_inj.
Qed.

Lemma names_of_resources t (names : list string) :
  (model_name ∘ resource_model) <$> (resource_for t <$> names) = names.
Proof. rewrite <- list_fmap_compose. apply list_fmap_id. Qed.

Lemma models_for_lookup t names : ∀ (m : gmap string Model) name,
  models_for t m names !! name
  = if decide (name ∈ names) then Some (mkModel name (obj_get name t))
    else m !! name.
Proof.
  unfold models_for.
  induction names as [|k names IH]; intros m name; cbn [foldl].
  - rewrite decide_False; [done | apply not_elem_of_nil].
  - rewrite IH. destruct (decide (name ∈ names)) as [Hin|Hnin].
    + rewrite decide_True; [done | by apply elem_of_cons; right].
    + destruct (decide (name = k)) as [->|Hne].
      * rewrite lookup_insert_eq, decide_True; [done | apply elem_of_cons; by left].
      * rewrite lookup_insert_ne by done.
        rewrite decide_False; [done |]. intros [?|?]%elem_of_cons; done.
Qed.

Lemma resources_named_absent t (names : list string) name :
  name ∉ names →
  filter (λ r, model_name (resource_model r) = name) (resource_for t <$> names) = [].
Proof.
  induction names as [|k names IH]; intros Hnin; [done |].
  apply not_elem_of_cons in Hnin as [Hne Hnin].
  rewrite fmap_cons, filter_cons, decide_False; [by apply IH | by intros <-].
Qed.

(** Among the resources of distinct names, exactly one serves a given
    name. *)
Lemma resources_named_once t (names : list string) name :
  NoDup names → name ∈ names →
  filter (λ r, model_name (resource_model r) = name) (resource_for t <$> names)
  = [resource_for t name].
Proof.
  induction 1 as [|k names Hk Hnd IH]; intros Hin.
  - by apply not_elem_of_nil in Hin.
  - rewrite fmap_cons, filter_cons. destruct (decide (k = name)) as [->|Hne].
    + rewrite decide_True by done. f_equal. by apply resources_named_absent.
    + rewrite decide_False by done. apply IH.
      apply elem_of_cons in Hin as [?|?]; done.
Qed.

Lemma route_names t (names : list string) :
  (model_name ∘ route_model) <$> concat (routes_of <$> (resource_for t <$> names))
  = names ≫= replicate 5.
Proof.
  induction names as [|k names IH]; [done |].
  rewrite !fmap_cons. cbn [concat]. rewrite fmap_app, IH. done.
Qed.

(** A run serves each table name once, by the model registered under that
    name. *)
Lemma run_serves_once i arg s name :
  truthy (run_error i) = false →
  usable s arg = true →
  name ∈ (discovered i).*1 →
  ∃ s' data rs a,
    createRouter i arg s = (Ok tt, s')
    ∧ st_promise s' = [Resolved data]
    ∧ data_resources data = Some rs
    ∧ filter (λ r, model_name (resource_model r) = name) rs
      = [resource_for (tables_of i) name]
    ∧ auto (st_this s') = Some a
    ∧ models (sequelize a) !! name = Some (mkModel name (obj_get name (tables_of i))).
Proof.
  intros Herr (l & ob & Ht & Hl)%usable_spec Hname.
  assert (name ∈ Object_keys (tables_of i)) as Hin.
  { apply elem_of_Object_keys, (elem_of_assignments _ []). by right. }
  eexists _, _, (registered i), _.
  split; [by apply (createRouter_Resolved _ _ _ _ _ Herr Ht Hl) |].
  split_and!; try done.
  - apply resources_named_once; [| done].
    apply NoDup_Object_keys, (NoDup_assignments []), NoDup_nil_2.
  - cbn [models sequelize set_models]. rewrite models_for_lookup.
    by rewrite decide_True.
Qed.
End resources.

(** ** The remaining outcomes of a run *)

Section outcomes.
Implicit Types (s : State) (arg : option value) (i : Introspection).

Lemma bind_Throw {A B} (m : M A) (f : A → M B) s e s' :
  m s = (Throw e, s') → bind m f s = (Throw e, s').
Proof. unfold bind. by intros ->. Qed.

Lemma truthy_target s arg : truthy (target s arg) = true.
Proof. unfold target. by destruct (truthy (param arg VUndefined)) eqn:Ht. Qed.

Lemma unusable_spec s arg :
  usable s arg = false →
  truthy (param arg VUndefined) = true
  ∧ ∀ r s0, st_heap s0 = st_heap s →
      mount (param arg VUndefined) r s0
      = (Throw (TypeError "app[method] is not a function"), s0).
Proof.
  unfold usable. cbv zeta.
  destruct (truthy (param arg VUndefined)); [| done].
  intros Hus. split; [done |]. intros r s0 Hs0. unfold mount.
  destruct (param arg VUndefined) as [| | | | | | |l]; try done.
  apply bool_decide_eq_false in Hus. rewrite Hs0.
  destruct (st_heap s !! l) eqn:Hl; [| done].
  exfalso. apply Hus. by eexists.
Qed.

Lemma tables_of_nil i : tables_of i = [] ↔ discovered i = [].
Proof.
  split.
  - intros Ht. destruct (discovered i) as [|[k v] l] eqn:Hd; [done |].
    assert (k ∈ own_names (tables_of i)) as Hin.
    { unfold tables_of, obj_of_assignments. rewrite Hd.
      apply elem_of_assignments. right. apply elem_of_cons. by left. }
    rewrite Ht in Hin. by apply not_elem_of_nil in Hin.
  - unfold tables_of. by intros ->.
Qed.

Lemma Object_keys_nil_iff i : Object_keys (tables_of i) = [] ↔ discovered i = [].
Proof.
  rewrite <- tables_of_nil. split.
  - intros Hk. apply length_zero_iff_nil.
    by rewrite <- length_Object_keys, Hk.
  - by intros ->.
Qed.

(** No error, no table: the loop does nothing and the promise resolves,
    whatever the router is. *)
Lemma createRouter_no_tables i arg s :
  truthy (run_error i) = false →
  discovered i = [] →
  createRouter i arg s
  = (Ok tt,
     mkState (target_heap s arg) (Some (mkEpilogue (target s arg) ""))
       (this_after i (st_this s) (target s arg))
       [Resolved (mkResolution (this_after i (st_this s) (target s arg))
                    (target s arg) (Some []))]).
Proof.
  intros Herr Hd. unfold createRouter.
  erewrite bind_Ok; [| reflexivity].
  erewrite bind_Ok; [| reflexivity].
  erewrite bind_Ok; last first.
  { instantiate (1 := mkState (target_heap s arg) (st_epilogue s)
      (set_auto (Some (new_SequelizeAuto
         (database (st_this s)) (user (st_this s))
         (password (st_this s)) (options (st_this s)))) (st_this s))
      (st_promise s)).
    instantiate (1 := target s arg).
    unfold target, target_heap.
    destruct (truthy (param arg VUndefined)); reflexivity. }
  erewrite bind_Ok; [| reflexivity].
  erewrite bind_Ok; [| reflexivity].
  erewrite bind_Ok; [| reflexivity].
  unfold auto_run.
  erewrite bind_Ok; [| reflexivity].
  unfold callback. rewrite Herr.
  erewrite bind_Ok; [| reflexivity].
  erewrite bind_Ok; [| reflexivity].
  erewrite bind_Ok; last first.
  { unfold epilogue_initialize. cbn [router st_this set_this set_router set_resources
      set_auto set_promise]. rewrite truthy_target. reflexivity. }
  erewrite bind_Ok; [| reflexivity].
  unfold this_after, registered, auto_after_run, tables_of. rewrite Hd.
  reflexivity.
Qed.

Lemma epilogue_resource_Throws m e1 e2 h v t p :
  (∀ r0 s0, st_heap s0 = h →
     mount v r0 s0 = (Throw (TypeError "app[method] is not a function"), s0)) →
  epilogue_resource (Some m) [e1; e2] (mkState h (Some (mkEpilogue v "")) t p)
  = (Throw (TypeError "app[method] is not a function"),
     mkState h (Some (mkEpilogue v "")) t p).
Proof.
  intros Hmount. unfold epilogue_resource.
  erewrite bind_Ok; [| reflexivity]. cbn [st_epilogue app].
  erewrite bind_Throw; [reflexivity |].
  cbn [routes_of forEach].
  erewrite bind_Throw; [reflexivity |].
  by apply Hmount.
Qed.

Lemma each_table_Throws name h v d u p o a r rs pr :
  (∀ r0 s0, st_heap s0 = h →
     mount v r0 s0 = (Throw (TypeError "app[method] is not a function"), s0)) →
  each_table name
    (mkState h (Some (mkEpilogue v "")) (mkRESTRouter d u p o (Some a) r (Some rs)) pr)
  = (Throw (TypeError "app[method] is not a function"),
     mkState h (Some (mkEpilogue v ""))
       (mkRESTRouter d u p o
          (Some (set_models
                   (<[name := mkModel name (obj_get name (tables a))]>
                      (models (sequelize a))) a))
          r (Some rs)) pr).
Proof.
  intros Hmount. unfold each_table.
  erewrite bind_Ok; [| reflexivity].
  erewrite bind_Ok; [| reflexivity].
  erewrite bind_Ok; [| reflexivity].
  cbv zeta. cbn [models sequelize set_models].
  rewrite lookup_insert_eq.
  erewrite bind_Throw; [reflexivity |].
  by apply epilogue_resource_Throws.
Qed.

(** No error, at least one table, and a router that is not one: the first
    route raises. *)
Lemma createRouter_Throws i arg s k ks :
  truthy (run_error i) = false →
  usable s arg = false →
  Object_keys (tables_of i) = k :: ks →
  createRouter i arg s
  = (Throw (TypeError "app[method] is not a function"),
     mkState (st_heap s) (Some (mkEpilogue (param arg VUndefined) ""))
       (mkRESTRouter (database (st_this s)) (user (st_this s))
          (password (st_this s)) (options (st_this s))
          (Some (set_models (<[k := mkModel k (obj_get k (tables_of i))]> ∅)
                   (auto_after_run i (st_this s))))
          (param arg VUndefined) (Some []))
       []).
Proof.
  intros Herr [Htr Hmount]%unusable_spec Hks. unfold createRouter.
  erewrite bind_Ok; [| reflexivity].
  erewrite bind_Ok; [| reflexivity].
  rewrite Htr.
  erewrite bind_Ok; [| reflexivity].
  erewrite bind_Ok; [| reflexivity].
  erewrite bind_Ok; [| reflexivity].
  erewrite bind_Ok; [| reflexivity].
  unfold auto_run.
  erewrite bind_Ok; [| reflexivity].
  unfold callback. rewrite Herr.
  erewrite bind_Ok; [| reflexivity].
  erewrite bind_Ok; [| reflexivity].
  erewrite bind_Ok; last first.
  { unfold epilogue_initialize. cbn [router st_this set_this set_router set_resources
      set_auto set_promise]. rewrite Htr. reflexivity. }
  erewrite bind_Ok; [| reflexivity].
  cbn [tables set_tables new_SequelizeAuto].
  change (foldl (λ o kv, obj_set kv.1 kv.2 o) [] (discovered i)) with (tables_of i).
  rewrite Hks. cbn [forEach].
  erewrite bind_Throw; [reflexivity |].
  erewrite bind_Throw; [reflexivity |].
  by apply (each_table_Throws k (st_heap s)).
Qed.
End outcomes.

Ltac run_cases i arg s :=
  let Herr := fresh "Herr" in
  let Hus := fresh "Hus" in
  let Hks := fresh "Hks" in
  let l := fresh "l" in
  let ob := fresh "ob" in
  let Ht := fresh "Ht" in
  let Hl := fresh "Hl" in
  let k := fresh "k" in
  let ks := fresh "ks" in
  destruct (truthy (run_error i)) eqn:Herr;
  [ rewrite (createRouter_Rejected i arg s Herr)
  | destruct (usable s arg) eqn:Hus;
    [ destruct (usable_spec s arg Hus) as (l & ob & Ht & Hl);
      rewrite (createRouter_Resolved i arg s l ob Herr Ht Hl)
    | destruct (Object_keys (tables_of i)) as [|k ks] eqn:Hks;
      [ apply Object_keys_nil_iff in Hks;
        rewrite (createRouter_no_tables i arg s Herr Hks)
      | rewrite (createRouter_Throws i arg s k ks Herr Hus Hks) ] ] ].

(** * The claims *)

(** C1.  A run whose introspection reports no error resolves with exactly one
    resource per table of [auto.tables]: as many resources as tables, their
    names the table names without repetition, their collection paths pairwise
    distinct; a database whose tables all have different names yields as many
    resources as it has tables, and one without tables resolves with the
    empty list. *)
Theorem C1_one_resource_per_table i arg s :
  truthy (run_error i) = false →
  usable s arg = true →
  ∃ s' data rs,
    createRouter i arg s = (Ok tt, s')
    ∧ st_promise s' = [Resolved data]
    ∧ data_resources data = Some rs
    ∧ length rs = length (tables_of i)
    ∧ (model_name ∘ resource_model) <$> rs ≡ₚ own_names (tables_of i)
    ∧ NoDup ((model_name ∘ resource_model) <$> rs)
    ∧ NoDup (plural <$> rs)
    ∧ (NoDup (discovered i).*1 → length rs = length (discovered i))
    ∧ (discovered i = [] → rs = []).
Proof.
  intros Herr (l & ob & Ht & Hl)%usable_spec.
  eexists _, _, (registered i).
  split; [by apply (createRouter_Resolved _ _ _ _ _ Herr Ht Hl) |].
  assert (NoDup (Object_keys (tables_of i))) as Hnd.
  { apply NoDup_Object_keys, (NoDup_assignments []), NoDup_nil_2. }
  unfold registered. split_and!; try done.
  - by rewrite !length_fmap, length_Object_keys.
  - rewrite names_of_resources. apply Object_keys_Permutation.
  - by rewrite names_of_resources.
  - by apply NoDup_plural.
  - intros Hdis. rewrite !length_fmap, length_Object_keys.
    unfold tables_of, obj_of_assignments.
    rewrite <- (length_fmap fst (foldl _ _ _)).
    fold (own_names (foldl (λ o kv, obj_set kv.1 kv.2 o) [] (discovered i))).
    rewrite own_names_assignments by done.
    unfold own_names. by rewrite length_app, !length_fmap.
  - unfold tables_of. by intros ->.
Qed.


Lemma C1_witness :
  truthy (run_error Samples.shop) = false
  ∧ usable Samples.fresh None = true
  ∧ ∃ s' data rs,
      createRouter Samples.shop None Samples.fresh = (Ok tt, s')
      ∧ st_promise s' = [Resolved data]
      ∧ data_resources data = Some rs
      ∧ length rs = length (tables_of Samples.shop)
      ∧ (model_name ∘ resource_model) <$> rs ≡ₚ own_names (tables_of Samples.shop)
      ∧ NoDup ((model_name ∘ resource_model) <$> rs)
      ∧ NoDup (plural <$> rs)
      ∧ (NoDup (discovered Samples.shop).*1 → length rs = length (discovered Samples.shop))
      ∧ (discovered Samples.shop = [] → rs = []).
Proof.
  split; [reflexivity |]. split; [reflexivity |].
  apply (C1_one_resource_per_table Samples.shop None Samples.fresh); reflexivity.
Defined.

(** C4.  Every resource of a run is bound to the two endpoints
    ["/" + name] and ["/" + name + "/:id"] of the table it serves, in that
    order, and every route mounted for it lies on one of the two: the paths
    depend on the table name alone. *)
Theorem C4_endpoint_paths i arg s :
  truthy (run_error i) = false →
  usable s arg = true →
  ∃ s' data rs,
    createRouter i arg s = (Ok tt, s')
    ∧ st_promise s' = [Resolved data]
    ∧ data_resources data = Some rs
    ∧ (model_name ∘ resource_model) <$> rs = Object_keys (tables_of i)
    ∧ Forall (λ r, endpoints r
                   = [ "/" +:+ model_name (resource_model r);
                       "/" +:+ model_name (resource_model r) +:+ "/:id" ]) rs
    ∧ Forall (λ r, Forall (λ route, route_path route ∈ endpoints r) (routes_of r)) rs.
Proof.
  intros Herr (l & ob & Ht & Hl)%usable_spec.
  eexists _, _, (registered i).
  split; [by apply (createRouter_Resolved _ _ _ _ _ Herr Ht Hl) |].
  unfold registered. split_and!; try done.
  - apply names_of_resources.
  - apply Forall_fmap, Forall_true. done.
  - apply Forall_fmap, Forall_true. intros name.
    repeat constructor.
Qed.

Lemma C4_witness :
  truthy (run_error Samples.shop) = false
  ∧ usable Samples.with_app (Some (VRef 0)) = true
  ∧ ∃ s' data rs,
      createRouter Samples.shop (Some (VRef 0)) Samples.with_app = (Ok tt, s')
      ∧ st_promise s' = [Resolved data]
      ∧ data_resources data = Some rs
      ∧ (model_name ∘ resource_model) <$> rs = Object_keys (tables_of Samples.shop)
      ∧ Forall (λ r, endpoints r
                     = [ "/" +:+ model_name (resource_model r);
                         "/" +:+ model_name (resource_model r) +:+ "/:id" ]) rs
      ∧ Forall (λ r, Forall (λ route, route_path route ∈ endpoints r) (routes_of r)) rs.
Proof.
  split; [reflexivity |]. split; [reflexivity |].
  apply (C4_endpoint_paths Samples.shop (Some (VRef 0)) Samples.with_app); reflexivity.
Defined.

(** C7, as the specification has it, fails: the introspector records the
    tables [b], [10], [a], [9] in that order and the resource list comes out
    as [9], [10], [b], [a]. *)
Lemma C7_counterexample :
  ¬ (∀ i arg s s' data rs,
       truthy (run_error i) = false →
       usable s arg = true →
       NoDup (discovered i).*1 →
       createRouter i arg s = (Ok tt, s') →
       st_promise s' = [Resolved data] →
       data_resources data = Some rs →
       (model_name ∘ resource_model) <$> rs = (discovered i).*1).
Proof.
  intros Hclaim.
  pose proof (createRouter_Resolved Samples.numbered None Samples.fresh 0 _
                eq_refl eq_refl eq_refl) as Hrun.
  assert (NoDup (discovered Samples.numbered).*1) as Hnd.
  { repeat (apply NoDup_cons; split;
      [intros Hin; repeat (apply elem_of_cons in Hin as [?|Hin]; [done |]);
       by apply not_elem_of_nil in Hin |]).
    apply NoDup_nil_2. }
  specialize (Hclaim Samples.numbered None Samples.fresh _ _ _
                eq_refl eq_refl Hnd Hrun eq_refl eq_refl).
  vm_compute in Hclaim. discriminate Hclaim.
Qed.

(** C7, amended.  The resource list of a run names the tables in the order
    of [Object.keys(auto.tables)], and the routes are mounted on the router
    after the routes it already had, resource by resource in the order of
    that list.  When the introspector records each table once, that order
    is: the names that are array indices first, in ascending numeric order,
    then all other names in the order in which the introspector recorded
    them; it is the introspector's own order when no table name is an array
    index. *)
Theorem C7_resources_in_Object_keys_order i arg s :
  truthy (run_error i) = false →
  usable s arg = true →
  ∃ s' data rs l ob,
    createRouter i arg s = (Ok tt, s')
    ∧ st_promise s' = [Resolved data]
    ∧ data_resources data = Some rs
    ∧ (model_name ∘ resource_model) <$> rs = Object_keys (tables_of i)
    ∧ data_router data = VRef l
    ∧ target_heap s arg !! l = Some ob
    ∧ st_heap s' !! l = Some (mkHostObj (own ob) (stack ob ++ concat (routes_of <$> rs)))
    ∧ (model_name ∘ route_model) <$> concat (routes_of <$> rs)
      = ((model_name ∘ resource_model) <$> rs) ≫= replicate 5
    ∧ (NoDup (discovered i).*1 →
       (∃ numeric,
          (model_name ∘ resource_model) <$> rs
          = numeric ++ filter (λ k, ¬ is_array_index k) (discovered i).*1
          ∧ numeric ≡ₚ filter is_array_index (discovered i).*1
          ∧ Sorted index_le numeric)
       ∧ (Forall (λ k, ¬ is_array_index k) (discovered i).*1 →
          (model_name ∘ resource_model) <$> rs = (discovered i).*1)).
Proof.
  intros Herr (l & ob & Ht & Hl)%usable_spec.
  eexists _, _, (registered i), l, ob.
  split; [by apply (createRouter_Resolved _ _ _ _ _ Herr Ht Hl) |].
  unfold registered. rewrite names_of_resources. split_and!; try done.
  - cbn [st_heap]. apply list_lookup_insert_eq. by eapply lookup_lt_Some.
  - apply route_names.
  - intros Hnd.
    assert (own_names (tables_of i) = (discovered i).*1) as Hnames.
    { unfold tables_of, obj_of_assignments. by rewrite own_names_assignments. }
    split.
    + rewrite <- Hnames. apply Object_keys_order.
    + intros Hnamed. rewrite Object_keys_named; by rewrite Hnames.
Qed.

Lemma C7_witness :
  truthy (run_error Samples.numbered) = false
  ∧ usable Samples.with_app (Some (VRef 0)) = true
  ∧ ∃ s' data rs,
      createRouter Samples.numbered (Some (VRef 0)) Samples.with_app = (Ok tt, s')
      ∧ st_promise s' = [Resolved data]
      ∧ data_resources data = Some rs
      ∧ (model_name ∘ resource_model) <$> rs = ["9"; "10"; "b"; "a"]
      ∧ st_heap s' !! 0
        = Some (mkHostObj [] ([Samples.health] ++ concat (routes_of <$> rs)))
      ∧ (model_name ∘ route_model) <$> concat (routes_of <$> rs)
        = ["9"; "10"; "b"; "a"] ≫= replicate 5.
Proof.
  assert (Object_keys (tables_of Samples.numbered) = ["9"; "10"; "b"; "a"]) as Hkeys.
  { vm_compute. reflexivity. }
  split; [reflexivity |]. split; [reflexivity |].
  destruct (C7_resources_in_Object_keys_order Samples.numbered (Some (VRef 0))
              Samples.with_app eq_refl eq_refl)
    as (s' & data & rs & l & ob & H1 & H2 & H3 & H4 & H5 & H6 & H7 & H8 & _).
  exists s', data, rs.
  rewrite H8, H4, Hkeys. clear H4 H8 Hkeys.
  destruct l as [|l]; [| discriminate H6].
  injection H6 as <-.
  split; [exact H1 |]. split; [exact H2 |]. split; [exact H3 |].
  split; [reflexivity |]. split; [exact H7 | reflexivity].
Defined.

(** C6.  A router supplied as argument is the router of the resolution
    value, the routes of all resources are added to its stack and no other
    object changes; without an argument the router is a new object, at an
    address the heap did not have, that holds exactly the generated routes. *)
Theorem C6_router_supplied_or_created i s :
  truthy (run_error i) = false →
  (∀ l ob, st_heap s !! l = Some ob →
     ∃ s' data rs,
       createRouter i (Some (VRef l)) s = (Ok tt, s')
       ∧ st_promise s' = [Resolved data]
       ∧ data_resources data = Some rs
       ∧ data_router data = VRef l
       ∧ st_heap s'
         = <[l := mkHostObj (own ob) (stack ob ++ concat (routes_of <$> rs))]> (st_heap s)
       ∧ st_heap s' !! l
         = Some (mkHostObj (own ob) (stack ob ++ concat (routes_of <$> rs)))
       ∧ (∀ l', l' ≠ l → st_heap s' !! l' = st_heap s !! l'))
  ∧ (∃ s' data rs,
       createRouter i None s = (Ok tt, s')
       ∧ st_promise s' = [Resolved data]
       ∧ data_resources data = Some rs
       ∧ data_router data = VRef (length (st_heap s))
       ∧ st_heap s !! length (st_heap s) = None
       ∧ st_heap s' = st_heap s ++ [mkHostObj [] (concat (routes_of <$> rs))]).
Proof.
  intros Herr. split.
  - intros l ob Hl. eexists _, _, (registered i).
    split; [by apply (createRouter_Resolved _ (Some (VRef l)) _ _ _ Herr eq_refl Hl) |].
    split_and!; try done.
    + cbn [st_heap]. apply list_lookup_insert_eq. by eapply lookup_lt_Some.
    + intros l' Hne. cbn [st_heap]. by apply list_lookup_insert_ne.
  - eexists _, _, (registered i).
    split; [by apply (createRouter_Resolved _ None _ _ _ Herr eq_refl (lookup_fresh _ _)) |].
    split_and!; try done.
    + by apply lookup_ge_None.
    + cbn [st_heap own stack]. unfold target_heap. cbn [param truthy].
      rewrite insert_app_r_alt, Nat.sub_diag by done. done.
Qed.

Lemma C6_witness :
  truthy (run_error Samples.shop) = false
  ∧ (∃ s' data rs,
       createRouter Samples.shop (Some (VRef 0)) Samples.with_app = (Ok tt, s')
       ∧ st_promise s' = [Resolved data]
       ∧ data_resources data = Some rs
       ∧ data_router data = VRef 0
       ∧ st_heap s' !! 0
         = Some (mkHostObj [] ([Samples.health] ++ concat (routes_of <$> rs))))
  ∧ (∃ s' data rs,
       createRouter Samples.shop None Samples.with_app = (Ok tt, s')
       ∧ st_promise s' = [Resolved data]
       ∧ data_resources data = Some rs
       ∧ data_router data = VRef 1
       ∧ st_heap s' = [mkHostObj [] [Samples.health];
                       mkHostObj [] (concat (routes_of <$> rs))]).
Proof.
  split; [reflexivity |].
  destruct (C6_router_supplied_or_created Samples.shop Samples.with_app eq_refl)
    as [Hsupplied Hcreated].
  split.
  - destruct (Hsupplied 0 _ eq_refl) as (s' & data & rs & H1 & H2 & H3 & H4 & _ & H5 & _).
    by exists s', data, rs.
  - destruct Hcreated as (s' & data & rs & H1 & H2 & H3 & H4 & _ & H5).
    by exists s', data, rs.
Defined.

(** C3, as the specification has it, fails: handed a plain object for a
    router, with tables to serve, the callback raises on the first route and
    the promise is never settled. *)
Lemma C3_counterexample :
  ¬ (∀ i arg s, is_Some (promise_state (st_promise (createRouter i arg s).2))).
Proof.
  intros Hclaim.
  destruct (Hclaim Samples.shop (Some (VObject [])) Samples.fresh) as [x Hx].
  vm_compute in Hx. discriminate Hx.
Qed.

(** C3, amended: for a router argument that is missing, falsy or a router.
    The callback calls exactly one of [reject] and [resolve], once, so
    the promise is settled once.  When the introspector reports an error the
    promise is rejected with that error: the resource list is empty, no model
    is defined, epilogue is not initialized, and the heap is as before or has
    one new router with nothing mounted.  Otherwise the promise is resolved
    with the instance, its router and its resource list, which names every
    table. *)
Theorem C3_settles_once i arg s :
  (truthy (run_error i) = false → usable s arg = true) →
  ∃ s',
    createRouter i arg s = (Ok tt, s')
    ∧ length (st_promise s') = 1
    ∧ if truthy (run_error i)
      then promise_state (st_promise s') = Some (Rejected (run_error i))
           ∧ resources (st_this s') = Some []
           ∧ (models ∘ sequelize) <$> auto (st_this s') = Some ∅
           ∧ st_epilogue s' = st_epilogue s
           ∧ (st_heap s' = st_heap s ∨ st_heap s' = st_heap s ++ [mkHostObj [] []])
      else ∃ rs,
           promise_state (st_promise s')
           = Some (Resolved (mkResolution (st_this s') (router (st_this s')) (Some rs)))
           ∧ resources (st_this s') = Some rs
           ∧ (model_name ∘ resource_model) <$> rs = Object_keys (tables_of i).
Proof.
  intros Hus. destruct (truthy (run_error i)) eqn:Herr.
  - eexists. split; [by apply createRouter_Rejected |].
    split_and!; try done. cbn [st_heap]. unfold target_heap.
    destruct (truthy (param arg VUndefined)); [by left | by right].
  - destruct (usable_spec s arg (Hus eq_refl)) as (l & ob & Ht & Hl).
    eexists. split; [by apply (createRouter_Resolved _ _ _ _ _ Herr Ht Hl) |].
    split; [done |]. exists (registered i). split_and!; try done.
    apply names_of_resources.
Qed.

Lemma C3_witness :
  (truthy (run_error Samples.refused) = false
   → usable Samples.fresh (Some (VNum 1)) = true)
  ∧ (truthy (run_error Samples.shop) = false → usable Samples.fresh None = true)
  ∧ (∃ s', createRouter Samples.refused (Some (VNum 1)) Samples.fresh = (Ok tt, s')
           ∧ st_promise s' = [Rejected (VStr "ER_ACCESS_DENIED_ERROR")]
           ∧ resources (st_this s') = Some [])
  ∧ (∃ s' rs, createRouter Samples.shop None Samples.fresh = (Ok tt, s')
              ∧ st_promise s'
                = [Resolved (mkResolution (st_this s') (router (st_this s')) (Some rs))]
              ∧ (model_name ∘ resource_model) <$> rs = ["users"; "orders"]).
Proof.
  assert (truthy (run_error Samples.refused) = false
          → usable Samples.fresh (Some (VNum 1)) = true) as Hrefused.
  { intros Hfalse. vm_compute in Hfalse. discriminate Hfalse. }
  assert (truthy (run_error Samples.shop) = false → usable Samples.fresh None = true)
    as Hshop.
  { intros _. reflexivity. }
  split; [exact Hrefused |]. split; [exact Hshop |]. split.
  - destruct (C3_settles_once Samples.refused (Some (VNum 1)) Samples.fresh Hrefused)
      as (s' & Hrun & Hlen & Hrej & Hres & _).
    exists s'. split; [exact Hrun |]. split; [| exact Hres].
    destruct (st_promise s') as [|x [|y p]]; try discriminate Hlen.
    cbn in Hrej. by injection Hrej as ->.
  - destruct (C3_settles_once Samples.shop None Samples.fresh Hshop)
      as (s' & Hrun & Hlen & rs & Hres & Hrs & Hnames).
    exists s', rs. split; [exact Hrun |]. split; [| exact Hnames].
    destruct (st_promise s') as [|x [|y p]]; try discriminate Hlen.
    cbn in Hres. by injection Hres as ->.
Defined.

(** C10.  A falsy [router] argument runs exactly like a missing one: the
    argument is dropped and the router is a new object, at an address the
    heap did not have; when the promise resolves, its [router] field is that
    object. *)
Theorem C10_falsy_router_is_omitted i v s :
  truthy v = false →
  createRouter i (Some v) s = createRouter i None s
  ∧ ∃ s',
      createRouter i (Some v) s = (Ok tt, s')
      ∧ router (st_this s') = VRef (length (st_heap s))
      ∧ router (st_this s') ≠ v
      ∧ st_heap s !! length (st_heap s) = None
      ∧ is_Some (st_heap s' !! length (st_heap s))
      ∧ (truthy (run_error i) = false →
         ∃ data, st_promise s' = [Resolved data]
                 ∧ data_router data = VRef (length (st_heap s))).
Proof.
  intros Hv. destruct (target_falsy s v Hv) as [Ht Hh].
  assert (createRouter i (Some v) s = createRouter i None s) as Heq.
  { unfold createRouter.
    assert (param (Some v) VUndefined = v) as -> by (by destruct v).
    rewrite Hv. reflexivity. }
  assert (VRef (length (st_heap s)) ≠ v) as Hne by (by intros <-).
  assert (st_heap s !! length (st_heap s) = None) as Hnone by (by apply lookup_ge_None).
  split; [done |]. destruct (truthy (run_error i)) eqn:Herr.
  - eexists. split; [by apply createRouter_Rejected |].
    cbn [st_this st_heap router]. rewrite Ht, Hh, lookup_fresh.
    split_and!; try done.
  - eexists. split.
    { eapply (createRouter_Resolved _ _ _ _ _ Herr Ht). rewrite Hh. apply lookup_fresh. }
    cbn [st_this st_heap st_promise router this_after].
    split_and!; try done.
    + rewrite list_lookup_insert_eq; [done |]. rewrite Hh, length_app. cbn. lia.
    + intros _. by eexists.
Qed.

Lemma C10_witness :
  Forall (λ v, truthy v = false
               ∧ createRouter Samples.shop (Some v) Samples.with_app
                 = createRouter Samples.shop None Samples.with_app
               ∧ ∃ s', createRouter Samples.shop (Some v) Samples.with_app = (Ok tt, s')
                       ∧ router (st_this s') = VRef 1)
    [VUndefined; VNull; VBool false; VNum 0; VStr ""].
Proof.
  repeat apply Forall_cons_2; try apply Forall_nil_2.
  all: split; [reflexivity |].
  all: match goal with
       | |- createRouter _ (Some ?v) _ = _ ∧ _ =>
           destruct (C10_falsy_router_is_omitted Samples.shop v Samples.with_app eq_refl)
             as (Heq & s' & Hrun & Hr & _);
           split; [exact Heq | exists s'; split; [exact Hrun | exact Hr]]
       end.
Defined.

(** C8.  [RESTRouter.create(database, user, password, options, router)] is
    [new RESTRouter(database, user, password, options)] followed by
    [createRouter(router)] on the new instance: same outcome, same final
    state. *)
Theorem C8_create_is_new_then_createRouter i database user password options router s :
  create i database user password options router s
  = createRouter i router
      (set_this (constructor (st_heap s) database user password options) s).
Proof.
  unfold create.
  erewrite bind_Ok; [| reflexivity].
  erewrite bind_Ok; [| reflexivity].
  cbn [st_heap]. unfold createRouter.
  assert (param (Some (param router VUndefined)) VUndefined = param router VUndefined)
    as ->; [| reflexivity].
  by destruct router as [[]|].
Qed.

(** C9.  The options of an instance are the defaults overridden property by
    property by the caller's options object: a property the caller gives
    holds the caller's value, whole (a [define] object replaces the default
    [define] object, nothing of the default is kept inside it), every other
    property holds its default; without options the instance has exactly
    the defaults. *)
Theorem C9_options_shallow_merge h database user password :
  defaults
  = [ ("dialect", VStr "mysql");
      ("logging", VBool false);
      ("define", VObject [("timestamps", VBool false); ("freezeTableName", VBool true)]);
      ("closeConnectionAutomatically", VBool false);
      ("directory", VStr "models") ]
  ∧ (∀ o k,
       obj_lookup k (options (constructor h database user password (VObject o)))
       = match obj_lookup k o with
         | Some v => Some v
         | None => obj_lookup k defaults
         end)
  ∧ (∀ o d,
       obj_get "define"
         (options (constructor h database user password (VObject (obj_set "define" d o))))
       = d)
  ∧ options (constructor h database user password VUndefined) = defaults
  ∧ options (constructor h database user password VNull) = defaults.
Proof.
  assert (∀ o k,
    obj_lookup k (options (constructor h database user password (VObject o)))
    = match obj_lookup k o with
      | Some v => Some v
      | None => obj_lookup k defaults
      end) as Hmerge.
  { intros o k. cbn [options constructor]. unfold Object_assign. cbn [foldl].
    rewrite obj_lookup_assign_from.
    by change (assign_from h [] (VObject defaults)) with defaults. }
  split_and!; try done.
  intros o d. unfold obj_get. by rewrite Hmerge, obj_lookup_set_eq.
Qed.

(** C5.  In the registry as the specification describes it, defining a
    model under a name that is already registered leaves the registry as if
    only the second definition had been made: one handle for the name, the
    later one.  The program itself defines each name once per run: a run in
    which the introspector records the same table name more than once keeps
    the description recorded last in its table object, defines one model
    under the name and lists the table once; running again from the state
    the run left lists it once again. *)
Theorem C5_reregistration_replaces i arg s name :
  truthy (run_error i) = false →
  usable s arg = true →
  name ∈ (discovered i).*1 →
  (∀ t1 t2 s0 a,
     auto (st_this s0) = Some a →
     ∃ s2 a2,
       (sequelize_define name t1 ;;; sequelize_define name t2) s0 = (Ok tt, s2)
       ∧ auto (st_this s2) = Some a2
       ∧ models (sequelize a2) = <[name := mkModel name t2]> (models (sequelize a))
       ∧ models (sequelize a2) !! name = Some (mkModel name t2)
       ∧ size (models (sequelize a2)) = size (<[name := mkModel name t1]> (models (sequelize a))))
  ∧ ∃ s' data rs a,
      createRouter i arg s = (Ok tt, s')
      ∧ st_promise s' = [Resolved data]
      ∧ data_resources data = Some rs
      ∧ filter (λ r, model_name (resource_model r) = name) rs
        = [resource_for (tables_of i) name]
      ∧ auto (st_this s') = Some a
      ∧ (∃ m, models (sequelize a) !! name = Some m ∧ model_name m = name)
      ∧ (∀ l1 v l2, discovered i = l1 ++ (name, v) :: l2 → name ∉ l2.*1 →
           obj_lookup name (tables_of i) = Some v)
      ∧ (∀ arg', usable s' arg' = true →
           ∃ s'' data' rs',
             createRouter i arg' s' = (Ok tt, s'')
             ∧ st_promise s'' = [Resolved data']
             ∧ data_resources data' = Some rs'
             ∧ filter (λ r, model_name (resource_model r) = name) rs'
               = [resource_for (tables_of i) name]).
Proof.
  intros Herr Hus Hname. split.
  - intros t1 t2 s0 a Ha. destruct s0 as [h0 e0 [d0 u0 p0 o0 a0 r0 rs0] pr0].
    cbn in Ha. subst a0. eexists _, _.
    split; [reflexivity |]. cbn. split; [done |].
    rewrite insert_insert_eq. split; [done |]. split; [apply lookup_insert_eq |].
    cbn [models sequelize set_models].
    destruct (models (sequelize a) !! name) as [m|] eqn:Hm.
    + rewrite !map_size_insert_Some; by eauto.
    + rewrite !map_size_insert_None; done.
  - destruct (run_serves_once i arg s name Herr Hus Hname)
      as (s' & data & rs & a & Hrun & Hp & Hrs & Honce & Ha & Hm).
    exists s', data, rs, a. split_and!; try done.
    + by eexists.
    + intros l1 v l2 Hd Hl2. unfold tables_of, obj_of_assignments.
      rewrite Hd. by rewrite obj_lookup_assignments_last.
    + intros arg' Hus'.
      destruct (run_serves_once i arg' s' name Herr Hus' Hname)
        as (s'' & data' & rs' & a' & Hrun' & Hp' & Hrs' & Honce' & _).
      by exists s'', data', rs'.
Qed.

Lemma C5_witness :
  truthy (run_error Samples.twice) = false
  ∧ usable Samples.fresh None = true
  ∧ "users" ∈ (discovered Samples.twice).*1
  ∧ ∃ s' data rs a,
      createRouter Samples.twice None Samples.fresh = (Ok tt, s')
      ∧ st_promise s' = [Resolved data]
      ∧ data_resources data = Some rs
      ∧ filter (λ r, model_name (resource_model r) = "users") rs
        = [resource_for (tables_of Samples.twice) "users"]
      ∧ auto (st_this s') = Some a
      ∧ ∃ m, models (sequelize a) !! "users" = Some m ∧ model_name m = "users".
Proof.
  assert ("users" ∈ (discovered Samples.twice).*1) as Hin.
  { apply elem_of_cons. by left. }
  split; [reflexivity |]. split; [reflexivity |]. split; [exact Hin |].
  destruct (C5_reregistration_replaces Samples.twice None Samples.fresh "users"
              eq_refl eq_refl Hin)
    as (_ & s' & data & rs & a & H1 & H2 & H3 & H4 & H5 & H6 & _).
  by exists s', data, rs, a.
Defined.

(** C2, as the specification has it, fails: the tables [a] and [a/:id] share
    the path [/a/:id], and the run resolves with both resources. *)
Lemma C2_counterexample :
  ¬ (∀ i arg s n1 n2 p,
       truthy (run_error i) = false →
       usable s arg = true →
       n1 ∈ own_names (tables_of i) →
       n2 ∈ own_names (tables_of i) →
       n1 ≠ n2 →
       p ∈ endpoints (resource_for (tables_of i) n1) →
       p ∈ endpoints (resource_for (tables_of i) n2) →
       ∃ e, promise_state (st_promise (createRouter i arg s).2) = Some (Rejected e)).
Proof.
  intros Hclaim.
  destruct (Hclaim Samples.clash None Samples.fresh "a" "a/:id" "/a/:id")
    as [e He].
  - reflexivity.
  - reflexivity.
  - apply elem_of_cons. by left.
  - apply elem_of_cons. right. apply elem_of_cons. by left.
  - discriminate.
  - apply elem_of_cons. right. apply elem_of_cons. by left.
  - apply elem_of_cons. by left.
  - vm_compute in He. discriminate He.
Qed.

(** C2, amended.  The code has no collision check.  When two different
    tables of a run share a path, the promise is never rejected for it: a
    rejection, if there is one, carries the introspector's own error.  When
    the introspector reports no error and the router argument is usable, the
    run resolves, with one resource per table and the resources of both
    tables in the list.  Their collection paths differ and so do their item
    paths; the shared path is the item path of one and the collection path of
    the other. *)
Theorem C2_shared_path_still_resolves i arg s n1 n2 p :
  n1 ∈ own_names (tables_of i) →
  n2 ∈ own_names (tables_of i) →
  n1 ≠ n2 →
  p ∈ endpoints (resource_for (tables_of i) n1) →
  p ∈ endpoints (resource_for (tables_of i) n2) →
  (∀ e, promise_state (st_promise (createRouter i arg s).2) = Some (Rejected e) →
        e = run_error i ∧ truthy (run_error i) = true)
  ∧ plural (resource_for (tables_of i) n1) ≠ plural (resource_for (tables_of i) n2)
  ∧ singular (resource_for (tables_of i) n1) ≠ singular (resource_for (tables_of i) n2)
  ∧ (p = singular (resource_for (tables_of i) n1)
     ∧ p = plural (resource_for (tables_of i) n2)
     ∨ p = plural (resource_for (tables_of i) n1)
       ∧ p = singular (resource_for (tables_of i) n2))
  ∧ (truthy (run_error i) = false →
     usable s arg = true →
     ∃ s' data rs,
       createRouter i arg s = (Ok tt, s')
       ∧ st_promise s' = [Resolved data]
       ∧ data_resources data = Some rs
       ∧ length rs = length (tables_of i)
       ∧ resource_for (tables_of i) n1 ∈ rs
       ∧ resource_for (tables_of i) n2 ∈ rs).
Proof.
  intros Hn1 Hn2 Hne Hp1 Hp2.
  assert (plural (resource_for (tables_of i) n1) ≠ plural (resource_for (tables_of i) n2))
    as Hpl.
  { rewrite !plural_resource_for. by intros ?%append_slash_inj. }
  assert (singular (resource_for (tables_of i) n1)
          ≠ singular (resource_for (tables_of i) n2)) as Hsg.
  { rewrite !singular_resource_for. by intros ?%append_id_inj. }
  split_and!; try done.
  - intros e. run_cases i arg s; cbn [snd st_promise promise_state head]; try done.
    by intros [= <-].
  - change (endpoints (resource_for (tables_of i) n1))
      with [plural (resource_for (tables_of i) n1);
            singular (resource_for (tables_of i) n1)] in Hp1.
    change (endpoints (resource_for (tables_of i) n2))
      with [plural (resource_for (tables_of i) n2);
            singular (resource_for (tables_of i) n2)] in Hp2.
    rewrite !elem_of_cons, elem_of_nil in Hp1, Hp2.
    destruct Hp1 as [Hp1|[Hp1|[]]], Hp2 as [Hp2|[Hp2|[]]]; subst p; tauto.
  - intros Herr (l & ob & Ht & Hl)%usable_spec.
    eexists _, _, (registered i).
    split; [by apply (createRouter_Resolved _ _ _ _ _ Herr Ht Hl) |].
    unfold registered. split_and!; try done.
    + by rewrite !length_fmap, length_Object_keys.
    + apply list_elem_of_fmap_2, elem_of_Object_keys, Hn1.
    + apply list_elem_of_fmap_2, elem_of_Object_keys, Hn2.
Qed.

Lemma C2_witness :
  "a" ∈ own_names (tables_of Samples.clash)
  ∧ "a/:id" ∈ own_names (tables_of Samples.clash)
  ∧ "a" ≠ "a/:id"
  ∧ "/a/:id" ∈ endpoints (resource_for (tables_of Samples.clash) "a")
  ∧ "/a/:id" ∈ endpoints (resource_for (tables_of Samples.clash) "a/:id")
  ∧ truthy (run_error Samples.clash) = false
  ∧ usable Samples.fresh None = true
  ∧ ∃ s' data rs,
      createRouter Samples.clash None Samples.fresh = (Ok tt, s')
      ∧ st_promise s' = [Resolved data]
      ∧ data_resources data = Some rs
      ∧ length rs = 2
      ∧ resource_for (tables_of Samples.clash) "a" ∈ rs
      ∧ resource_for (tables_of Samples.clash) "a/:id" ∈ rs.
Proof.
  assert ("a" ∈ own_names (tables_of Samples.clash)) as H1.
  { apply elem_of_cons. by left. }
  assert ("a/:id" ∈ own_names (tables_of Samples.clash)) as H2.
  { apply elem_of_cons. right. apply elem_of_cons. by left. }
  assert ("a" ≠ "a/:id") as H3 by discriminate.
  assert ("/a/:id" ∈ endpoints (resource_for (tables_of Samples.clash) "a")) as H4.
  { apply elem_of_cons. right. apply elem_of_cons. by left. }
  assert ("/a/:id" ∈ endpoints (resource_for (tables_of Samples.clash) "a/:id")) as H5.
  { apply elem_of_cons. by left. }
  split_and!; try done.
  destruct (C2_shared_path_still_resolves Samples.clash None Samples.fresh
              "a" "a/:id" "/a/:id" H1 H2 H3 H4 H5)
    as (_ & _ & _ & _ & Hres).
  destruct (Hres eq_refl eq_refl) as (s' & data & rs & E1 & E2 & E3 & E4 & E5 & E6).
  by exists s', data, rs.
Defined.

(** An empty database resolves with the empty resource list and nothing
    mounted. *)
Example empty_database_resolves :
  ∃ s' data,
    createRouter Samples.empty None Samples.fresh = (Ok tt, s')
    ∧ st_promise s' = [Resolved data]
    ∧ data_resources data = Some []
    ∧ st_heap s' = [mkHostObj [] []].
Proof. eexists _, _. split; [vm_compute; reflexivity | done]. Qed.

(** Array indices among the table names come first, in numeric order. *)
Example numeric_names_first :
  Object_keys (obj_of_assignments
    [("b", VNull); ("10", VNull); ("a", VNull); ("9", VNull); ("01", VNull)])
  = ["9"; "10"; "b"; "a"; "01"].
Proof. vm_compute. reflexivity. Qed.

(** What the precondition [usable] excludes: a truthy argument that is not a
    router is kept as the router, the first route mounted on it raises a
    [TypeError] inside the callback, and the promise stays pending. *)
Remark createRouter_not_a_router :
  ∃ s', createRouter Samples.shop (Some (VNum 1)) Samples.fresh
        = (Throw (TypeError "app[method] is not a function"), s')
        ∧ promise_state (st_promise s') = None
        ∧ router (st_this s') = VNum 1.
Proof. eexists. split; [vm_compute; reflexivity | done]. Qed.

(** * Further properties of the class *)

(** ** When a run raises, and what the promise shows *)

(** Once the introspector is built, the callback returns normally exactly
    when the introspector reports an error, or the router argument is usable,
    or there is no table; otherwise it raises the [TypeError] of the first
    route. *)
Lemma run_returns_iff i arg s :
  ((createRouter i arg s).1 = Ok tt
   ↔ truthy (run_error i) = true ∨ usable s arg = true ∨ discovered i = [])
  ∧ ((createRouter i arg s).1 = Ok tt
     ∨ (createRouter i arg s).1 = Throw (TypeError "app[method] is not a function")).
Proof.
  run_cases i arg s; cbn [fst].
  - split; [| by left]. split; [by left | done].
  - split; [| by left]. split; [by right; left | done].
  - split; [| by left]. split; [by right; right | done].
  - split; [| by right]. split; [done |].
    intros [?|[?|Hd]]; try done.
    apply Object_keys_nil_iff in Hd. by rewrite Hd in Hks.
Qed.

(** X1.  A call of [createRouter] returns normally exactly when
    [new SequelizeAuto] accepts the settings and then the introspector reports
    an error, or the router argument is usable, or there is no table.  When
    the constructor raises, its exception leaves the call with nothing
    changed; otherwise the only exception is the [TypeError] of the first
    route mounted on something that is not a router. *)
Theorem createRouter_call_returns_iff refusal i arg s :
  ((createRouter_call refusal i arg s).1 = Ok tt
   ↔ refusal = None
     ∧ (truthy (run_error i) = true ∨ usable s arg = true ∨ discovered i = []))
  ∧ match refusal with
    | Some e => createRouter_call refusal i arg s = (Throw e, s)
    | None =>
        (createRouter_call refusal i arg s).1 = Ok tt
        ∨ (createRouter_call refusal i arg s).1
          = Throw (TypeError "app[method] is not a function")
    end.
Proof.
  destruct refusal as [e|]; cbn [createRouter_call].
  - split; [| done]. split; [done | by intros [? _]].
  - destruct (run_returns_iff i arg s) as [Hiff Hor]. split; [| done].
    rewrite Hiff. split; [done | by intros [_ ?]].
Qed.

(** X2.  In every run the promise sees at most one call of [resolve] or
    [reject]; it is settled exactly when the callback returns normally, and
    stays pending when the callback raises. *)
Theorem promise_settled_iff_returned i arg s :
  (length (st_promise (createRouter i arg s).2) ≤ 1)%nat
  ∧ (is_Some (promise_state (st_promise (createRouter i arg s).2))
     ↔ (createRouter i arg s).1 = Ok tt).
Proof.
  run_cases i arg s; cbn [fst snd st_promise promise_state head length].
  - split; [lia |]. split; [done | by eexists].
  - split; [lia |]. split; [done | by eexists].
  - split; [lia |]. split; [done | by eexists].
  - split; [lia |]. split; [by intros [? ?] | done].
Qed.

(** X3.  A truthy argument that is not a router, with at least one table and
    no error: the run raises on the first table.  By then the model of that
    table, and only that one, is defined; no resource is listed, the heap is
    untouched and the promise is pending. *)
Theorem unusable_router_raises i arg s :
  truthy (run_error i) = false →
  usable s arg = false →
  discovered i ≠ [] →
  ∃ s' a k,
    createRouter i arg s = (Throw (TypeError "app[method] is not a function"), s')
    ∧ head (Object_keys (tables_of i)) = Some k
    ∧ st_promise s' = []
    ∧ resources (st_this s') = Some []
    ∧ st_heap s' = st_heap s
    ∧ router (st_this s') = param arg VUndefined
    ∧ auto (st_this s') = Some a
    ∧ models (sequelize a) = {[ k := mkModel k (obj_get k (tables_of i)) ]}.
Proof.
  intros Herr Hus Hd.
  destruct (Object_keys (tables_of i)) as [|k ks] eqn:Hks.
  { by apply Object_keys_nil_iff in Hks. }
  eexists _, _, k. split; [by apply (createRouter_Throws i arg s k ks) |].
  split_and!; done.
Qed.

Lemma unusable_router_raises_witness :
  truthy (run_error Samples.shop) = false
  ∧ usable Samples.with_app (Some (VObject [])) = false
  ∧ discovered Samples.shop ≠ []
  ∧ ∃ s' a,
      createRouter Samples.shop (Some (VObject [])) Samples.with_app
      = (Throw (TypeError "app[method] is not a function"), s')
      ∧ st_promise s' = []
      ∧ resources (st_this s') = Some []
      ∧ auto (st_this s') = Some a
      ∧ models (sequelize a) !! "users" = Some (mkModel "users" Samples.columns)
      ∧ models (sequelize a) !! "orders" = None.
Proof.
  assert (discovered Samples.shop ≠ []) as Hd by discriminate.
  split; [reflexivity |]. split; [reflexivity |]. split; [exact Hd |].
  destruct (unusable_router_raises Samples.shop (Some (VObject [])) Samples.with_app
              eq_refl eq_refl Hd)
    as (s' & a & k & Hrun & Hk & Hp & Hrs & _ & _ & Ha & Hm).
  exists s', a. injection Hk as <-.
  split_and!; try done; rewrite Hm.
  - apply lookup_singleton_eq.
  - by apply lookup_singleton_ne.
Defined.

(** X4.  Without tables a truthy argument is never used as a router, so
    anything goes: the promise resolves with the argument itself in the
    [router] field and an empty resource list, and the heap is untouched. *)
Theorem no_table_any_router i v s :
  truthy (run_error i) = false →
  discovered i = [] →
  truthy v = true →
  ∃ s' data,
    createRouter i (Some v) s = (Ok tt, s')
    ∧ st_promise s' = [Resolved data]
    ∧ data_router data = v
    ∧ data_resources data = Some []
    ∧ st_heap s' = st_heap s.
Proof.
  intros Herr Hd Hv.
  assert (param (Some v) VUndefined = v) as Hp by (by destruct v).
  eexists _, _. split; [by apply createRouter_no_tables |].
  unfold target, target_heap. rewrite Hp, Hv. done.
Qed.

Lemma no_table_any_router_witness :
  truthy (run_error Samples.empty) = false
  ∧ discovered Samples.empty = []
  ∧ truthy (VStr "not a router") = true
  ∧ ∃ s' data,
      createRouter Samples.empty (Some (VStr "not a router")) Samples.fresh = (Ok tt, s')
      ∧ st_promise s' = [Resolved data]
      ∧ data_router data = VStr "not a router"
      ∧ data_resources data = Some []
      ∧ st_heap s' = st_heap Samples.fresh.
Proof.
  split; [reflexivity |]. split; [reflexivity |]. split; [reflexivity |].
  apply (no_table_any_router Samples.empty (VStr "not a router") Samples.fresh);
    reflexivity.
Defined.

(** ** What every run keeps *)

Lemma run_configuration i arg s :
  database (st_this (createRouter i arg s).2) = database (st_this s)
  ∧ user (st_this (createRouter i arg s).2) = user (st_this s)
  ∧ password (st_this (createRouter i arg s).2) = password (st_this s)
  ∧ options (st_this (createRouter i arg s).2) = options (st_this s)
  ∧ ∃ a, auto (st_this (createRouter i arg s).2) = Some a
         ∧ auto_database a = database (st_this s)
         ∧ auto_user a = user (st_this s)
         ∧ auto_password a = password (st_this s)
         ∧ auto_options a = options (st_this s)
         ∧ tables a = tables_of i.
Proof.
  run_cases i arg s; cbn [snd st_this database user password options auto];
    (split_and!; [done .. |]); eexists; (split; [reflexivity |]); done.
Qed.

(** X5.  A call of [createRouter] never changes the credentials and options
    of the instance.  When [new SequelizeAuto] raises, nothing at all is
    changed; when it returns, the introspector is built from exactly these
    four values, and the tables it ends with are named as this run's
    introspection named them. *)
Theorem createRouter_call_keeps_configuration refusal i arg s :
  let s' := (createRouter_call refusal i arg s).2 in
  database (st_this s') = database (st_this s)
  ∧ user (st_this s') = user (st_this s)
  ∧ password (st_this s') = password (st_this s)
  ∧ options (st_this s') = options (st_this s)
  ∧ match refusal with
    | Some _ => s' = s
    | None =>
        ∃ a, auto (st_this s') = Some a
             ∧ auto_database a = database (st_this s)
             ∧ auto_user a = user (st_this s)
             ∧ auto_password a = password (st_this s)
             ∧ auto_options a = options (st_this s)
             ∧ own_names (tables a) = own_names (tables_of i)
    end.
Proof.
  cbv zeta. destruct refusal as [e|]; cbn [createRouter_call]; [done |].
  destruct (run_configuration i arg s)
    as (Hd & Hu & Hp & Ho & a & Ha & Had & Hau & Hap & Hao & Htab).
  split_and!; try done. exists a. by rewrite Htab.
Qed.

(** Once the introspector is built: the [router] field is the argument when
    it is truthy and a new object otherwise; the heap grows by that new
    object and by nothing else; every other object is left as it was. *)
Lemma run_frame i arg s :
  let s' := (createRouter i arg s).2 in
  let given := param arg VUndefined in
  router (st_this s') = (if truthy given then given else VRef (length (st_heap s)))
  ∧ length (st_heap s') = (if truthy given then length (st_heap s)
                          else S (length (st_heap s)))
  ∧ (∀ l', router (st_this s') ≠ VRef l' → st_heap s' !! l' = st_heap s !! l').
Proof.
  cbv zeta.
  assert (∀ h : heap, ∀ l' x, VRef (length h) ≠ VRef l' →
            (h ++ [x]) !! l' = h !! l') as Hnew.
  { intros h l' x Hne. destruct (decide (l' < length h)) as [Hlt|Hge].
    - by apply lookup_app_l.
    - rewrite !lookup_ge_None_2; [done | lia |].
      rewrite length_app. cbn. assert (l' ≠ length h) by congruence. lia. }
  run_cases i arg s; cbn [snd st_this st_heap router this_after].
  - unfold target, target_heap.
    destruct (truthy (param arg VUndefined)); split_and!; try done.
    + rewrite length_app. cbn. lia.
    + intros l'. apply Hnew.
  - rewrite length_insert. unfold target, target_heap in *.
    destruct (truthy (param arg VUndefined)).
    + rewrite Ht. split_and!; try done.
      intros l' Hne. apply list_lookup_insert_ne. congruence.
    + injection Ht as <-. split_and!; try done.
      * rewrite length_app. cbn. lia.
      * intros l' Hne. rewrite list_lookup_insert_ne by congruence. by apply Hnew.
  - unfold target, target_heap.
    destruct (truthy (param arg VUndefined)); split_and!; try done.
    + rewrite length_app. cbn. lia.
    + intros l'. apply Hnew.
  - destruct (unusable_spec s arg Hus) as [-> _]. done.
Qed.

(** X6.  When [new SequelizeAuto] raises, the call leaves the router field
    and the heap as they were.  When it returns, then whatever happens next
    the [router] field is the argument when it is truthy and a new object
    otherwise; the heap grows by that new object and by nothing else; and
    every other object on the heap is left as it was. *)
Theorem createRouter_call_frame refusal i arg s :
  let s' := (createRouter_call refusal i arg s).2 in
  let given := param arg VUndefined in
  match refusal with
  | Some _ => s' = s
  | None =>
      router (st_this s') = (if truthy given then given else VRef (length (st_heap s)))
      ∧ length (st_heap s') = (if truthy given then length (st_heap s)
                              else S (length (st_heap s)))
      ∧ (∀ l', router (st_this s') ≠ VRef l' → st_heap s' !! l' = st_heap s !! l')
  end.
Proof.
  cbv zeta. destruct refusal as [e|]; cbn [createRouter_call]; [done |].
  apply run_frame.
Qed.

(** X7.  The error is tested for truthiness only: a run whose introspector
    calls back with a falsy error, whichever, is the run without error. *)
Theorem falsy_error_is_no_error tables e1 e2 arg s :
  truthy e1 = false →
  truthy e2 = false →
  createRouter (mkIntrospection tables e1) arg s
  = createRouter (mkIntrospection tables e2) arg s.
Proof.
  intros H1 H2. unfold createRouter, auto_run, callback. cbn [run_error discovered].
  by rewrite H1, H2.
Qed.

Lemma falsy_error_is_no_error_witness :
  truthy (VBool false) = false
  ∧ truthy (VStr "") = false
  ∧ createRouter (mkIntrospection (discovered Samples.shop) (VBool false)) None Samples.fresh
    = createRouter (mkIntrospection (discovered Samples.shop) (VStr "")) None Samples.fresh.
Proof.
  split; [reflexivity |]. split; [reflexivity |].
  apply (falsy_error_is_no_error (discovered Samples.shop) (VBool false) (VStr "")
           None Samples.fresh); reflexivity.
Defined.

(** Once the introspector is built, a run does not read what an earlier run
    left in the instance or in the promise. *)
Lemma run_starts_afresh i arg h e d u p o a r rs pr a' r' rs' pr' :
  createRouter i arg (mkState h e (mkRESTRouter d u p o a r rs) pr)
  = createRouter i arg (mkState h e (mkRESTRouter d u p o a' r' rs') pr').
Proof.
  set (s1 := mkState h e (mkRESTRouter d u p o a r rs) pr).
  set (s2 := mkState h e (mkRESTRouter d u p o a' r' rs') pr').
  assert (usable s2 arg = usable s1 arg) as Hus12 by done.
  destruct (truthy (run_error i)) eqn:Herr.
  { by rewrite (createRouter_Rejected i arg s1 Herr),
               (createRouter_Rejected i arg s2 Herr). }
  destruct (usable s1 arg) eqn:Hus.
  { destruct (usable_spec s1 arg Hus) as (l & ob & Ht & Hl).
    by rewrite (createRouter_Resolved i arg s1 l ob Herr Ht Hl),
               (createRouter_Resolved i arg s2 l ob Herr Ht Hl). }
  destruct (Object_keys (tables_of i)) as [|k ks] eqn:Hks.
  { apply Object_keys_nil_iff in Hks.
    by rewrite (createRouter_no_tables i arg s1 Herr Hks),
               (createRouter_no_tables i arg s2 Herr Hks). }
  by rewrite (createRouter_Throws i arg s1 k ks Herr Hus Hks),
             (createRouter_Throws i arg s2 k ks Herr Hus12 Hks).
Qed.

(** X8.  When [new SequelizeAuto] returns, the call overwrites [auto],
    [router], [resources] and the promise before it reads them: with the same
    heap, epilogue state, credentials and options it ends the same whatever
    these four were before.  When the constructor raises, none of them is
    overwritten: the earlier values remain. *)
Theorem createRouter_call_starts_afresh refusal i arg h e d u p o a r rs pr a' r' rs' pr' :
  match refusal with
  | None =>
      createRouter_call None i arg (mkState h e (mkRESTRouter d u p o a r rs) pr)
      = createRouter_call None i arg (mkState h e (mkRESTRouter d u p o a' r' rs') pr')
  | Some x =>
      createRouter_call (Some x) i arg (mkState h e (mkRESTRouter d u p o a r rs) pr)
      = (Throw x, mkState h e (mkRESTRouter d u p o a r rs) pr)
  end.
Proof.
  destruct refusal as [x|]; cbn [createRouter_call]; [done |].
  apply run_starts_afresh.
Qed.

(** ** Runs one after the other *)



(** X13.  A run that is rejected after one that resolved, on the same
    instance and router: the resource list of the instance is emptied, while
    the router keeps every route of the first run and epilogue stays
    initialized on it. *)
Theorem rejected_run_after_resolved i1 i2 s l ob :
  truthy (run_error i1) = false →
  truthy (run_error i2) = true →
  st_heap s !! l = Some ob →
  ∃ s1 s2 rs1,
    createRouter i1 (Some (VRef l)) s = (Ok tt, s1)
    ∧ resources (st_this s1) = Some rs1
    ∧ (model_name ∘ resource_model) <$> rs1 = Object_keys (tables_of i1)
    ∧ createRouter i2 (Some (VRef l)) s1 = (Ok tt, s2)
    ∧ st_promise s2 = [Rejected (run_error i2)]
    ∧ resources (st_this s2) = Some []
    ∧ router (st_this s2) = VRef l
    ∧ st_heap s2 = st_heap s1
    ∧ st_heap s2 !! l
      = Some (mkHostObj (own ob) (stack ob ++ concat (routes_of <$> rs1)))
    ∧ st_epilogue s2 = Some (mkEpilogue (VRef l) "").
Proof.
  intros Herr1 Herr2 Hl.
  pose proof (createRouter_Resolved i1 (Some (VRef l)) s l ob Herr1 eq_refl Hl) as Hrun1.
  match type of Hrun1 with _ = (_, ?st) => set (s1 := st) in * end.
  pose proof (createRouter_Rejected i2 (Some (VRef l)) s1 Herr2) as Hrun2.
  eexists s1, _, (registered i1).
  split; [exact Hrun1 |]. split; [done |].
  split; [apply names_of_resources |].
  split; [exact Hrun2 |].
  split_and!; try done.
  cbn [st_heap]. unfold target_heap. cbn [param truthy]. subst s1. cbn [st_heap].
  apply list_lookup_insert_eq. by eapply lookup_lt_Some.
Qed.

Lemma rejected_run_after_resolved_witness :
  truthy (run_error Samples.shop) = false
  ∧ truthy (run_error Samples.refused) = true
  ∧ st_heap Samples.with_app !! 0 = Some (mkHostObj [] [Samples.health])
  ∧ ∃ s1 s2 rs1,
      createRouter Samples.shop (Some (VRef 0)) Samples.with_app = (Ok tt, s1)
      ∧ resources (st_this s1) = Some rs1
      ∧ (model_name ∘ resource_model) <$> rs1 = ["users"; "orders"]
      ∧ createRouter Samples.refused (Some (VRef 0)) s1 = (Ok tt, s2)
      ∧ st_promise s2 = [Rejected (VStr "ER_ACCESS_DENIED_ERROR")]
      ∧ resources (st_this s2) = Some []
      ∧ st_heap s2 !! 0
        = Some (mkHostObj [] ([Samples.health] ++ concat (routes_of <$> rs1))).
Proof.
  split; [reflexivity |]. split; [reflexivity |]. split; [reflexivity |].
  destruct (rejected_run_after_resolved Samples.shop Samples.refused Samples.with_app 0 _
              eq_refl eq_refl eq_refl)
    as (s1 & s2 & rs1 & H1 & H2 & H3 & H4 & H5 & H6 & _ & _ & H7 & _).
  by exists s1, s2, rs1.
Defined.

(** ** The registry after a run *)

Lemma size_models_for t (names : list string) : ∀ m : gmap string Model,
  NoDup names →
  (∀ k, k ∈ names → m !! k = None) →
  size (models_for t m names) = size m + length names.
Proof.
  unfold models_for. induction names as [|k names IH]; intros m Hnd Hfresh.
  - cbn. lia.
  - apply NoDup_cons in Hnd as [Hk Hnd]. cbn [foldl length]. rewrite IH; [| done |].
    + rewrite map_size_insert_None; [lia |]. apply Hfresh, elem_of_cons. by left.
    + intros k' Hk'. rewrite lookup_insert_ne; [| by intros ->].
      apply Hfresh, elem_of_cons. by right.
Qed.

(** X10.  After a run that resolves, the names in the registry of the
    connection are the table names: a model is registered under a name
    exactly when the introspector has a table of that name, each model
    carries the name it is registered under, and there are as many models as
    tables. *)
Theorem registry_names_are_table_names i arg s :
  truthy (run_error i) = false →
  usable s arg = true →
  ∃ s' a,
    createRouter i arg s = (Ok tt, s')
    ∧ auto (st_this s') = Some a
    ∧ (∀ name, is_Some (models (sequelize a) !! name)
               ↔ name ∈ own_names (tables_of i))
    ∧ (∀ name m, models (sequelize a) !! name = Some m → model_name m = name)
    ∧ size (models (sequelize a)) = length (tables_of i).
Proof.
  intros Herr (l & ob & Ht & Hl)%usable_spec.
  eexists _, _. split; [by apply (createRouter_Resolved _ _ _ _ _ Herr Ht Hl) |].
  split; [done |]. cbn [models sequelize set_models].
  split_and!.
  - intros name. rewrite models_for_lookup, <- elem_of_Object_keys.
    case_decide as Hin.
    + split; [done | by eexists].
    + rewrite lookup_empty. split; [by intros [? ?] | done].
  - intros name m. rewrite models_for_lookup. case_decide as Hin.
    + by intros [= <-].
    + by rewrite lookup_empty.
  - rewrite size_models_for.
    + by rewrite map_size_empty, length_Object_keys.
    + apply NoDup_Object_keys, (NoDup_assignments []), NoDup_nil_2.
    + intros k _. apply lookup_empty.
Qed.

Lemma registry_names_are_table_names_witness :
  truthy (run_error Samples.twice) = false
  ∧ usable Samples.fresh None = true
  ∧ ∃ s' a,
      createRouter Samples.twice None Samples.fresh = (Ok tt, s')
      ∧ auto (st_this s') = Some a
      ∧ is_Some (models (sequelize a) !! "users")
      ∧ ¬ is_Some (models (sequelize a) !! "products")
      ∧ size (models (sequelize a)) = 2.
Proof.
  split; [reflexivity |]. split; [reflexivity |].
  destruct (registry_names_are_table_names Samples.twice None Samples.fresh
              eq_refl eq_refl)
    as (s' & a & Hrun & Ha & Hm & _ & Hsize).
  exists s', a. split; [exact Hrun |]. split; [exact Ha |].
  rewrite !Hm, Hsize. split_and!.
  - apply elem_of_cons. by left.
  - intros Hin. repeat (apply elem_of_cons in Hin as [Hin|Hin]; [discriminate Hin |]).
    by apply not_elem_of_nil in Hin.
  - reflexivity.
Defined.

(** ** The constructor and [create] *)



Lemma create_call_unfolded refusal i d u p o arg s :
  create_call refusal i d u p o arg s
  = createRouter_call refusal i arg
      (set_this (constructor (st_heap s) d u p o) s).
Proof.
  unfold create_call.
  erewrite bind_Ok; [| reflexivity].
  erewrite bind_Ok; [| reflexivity].
  cbn [st_heap]. destruct refusal as [e|]; cbn [createRouter_call]; [done |].
  unfold createRouter.
  assert (param (Some (param arg VUndefined)) VUndefined = param arg VUndefined)
    as ->; [| reflexivity].
  by destruct arg as [[]|].
Qed.

(** X12.  A call of [RESTRouter.create] always leaves an instance that holds
    the database, user and password it was given and the defaults-merged
    options, whose dialect is the caller's when the options object has one
    and ["mysql"] otherwise.  When [new SequelizeAuto] accepts these, the
    introspector is built from exactly them; when it raises, the exception
    leaves [create] and the new instance has no introspector, router or
    resource list. *)
Theorem create_call_passes_arguments_on refusal i d u p o arg s :
  let s' := (create_call refusal i d u p o arg s).2 in
  database (st_this s') = d
  ∧ user (st_this s') = u
  ∧ password (st_this s') = p
  ∧ options (st_this s') = Object_assign (st_heap s) [] [VObject defaults; o]
  ∧ (∀ given, o = VObject given →
       obj_lookup "dialect" (options (st_this s'))
       = Some (default (VStr "mysql") (obj_lookup "dialect" given)))
  ∧ match refusal with
    | Some e =>
        (create_call refusal i d u p o arg s).1 = Throw e
        ∧ auto (st_this s') = None
        ∧ router (st_this s') = VUndefined
        ∧ resources (st_this s') = None
        ∧ st_heap s' = st_heap s
    | None =>
        ∃ a, auto (st_this s') = Some a
             ∧ auto_database a = d
             ∧ auto_user a = u
             ∧ auto_password a = p
             ∧ auto_options a = options (st_this s')
    end.
Proof.
  cbv zeta. rewrite create_call_unfolded.
  assert (∀ given, o = VObject given →
            obj_lookup "dialect" (Object_assign (st_heap s) [] [VObject defaults; o])
            = Some (default (VStr "mysql") (obj_lookup "dialect" given))) as Hdialect.
  { intros given ->. unfold Object_assign. cbn [foldl].
    rewrite obj_lookup_assign_from. by destruct (obj_lookup "dialect" given). }
  destruct refusal as [e|]; cbn [createRouter_call].
  - done.
  - destruct (run_configuration i arg
                (set_this (constructor (st_heap s) d u p o) s))
      as (Hd & Hu & Hp & Ho & a & Ha & Had & Hau & Hap & Hao & _).
    cbn [st_this set_this database user password options constructor] in *.
    rewrite Ho. split_and!; try done. by exists a.
Qed.
